(** * CCS811 air-quality sensor driver (main.cpp): model and properties

    A shallow embedding of the driver in [main.cpp].  The driver talks to the
    sensor through the Mbed [I2C] object [i2c]; every register access is an
    [i2c.write] selecting the register followed by an [i2c.read], and any
    failure ends the program through [die] (which prints and calls
    [exit(1)]).

    Integer model.  The program is built for an Mbed (ARM) target, where
    plain [char] is an unsigned 8-bit type: a [char] is a [Z] in [0, 256),
    a store into a [char] is [to_char] (reduction modulo 256), a store into
    a [uint16_t] is [to_uint16].  Operands are promoted to [int] before
    [&], [|], [<<] and [>>], so the operators themselves are the exact
    [Z.land], [Z.lor], [Z.shiftl], [Z.shiftr]; [!] is C's logical negation. *)

From Stdlib Require Import ZArith List String Bool Lia.
Import ListNotations.

Local Open Scope string_scope.
Local Open Scope Z_scope.

(** ** C integers *)

Definition is_char (c : Z) : Prop := 0 <= c < 256.

Definition to_char (z : Z) : Z := z mod 256.

Definition to_uint16 (z : Z) : Z := z mod 65536.

(** [!x]: 1 when [x] is zero, 0 otherwise. *)
Definition c_not (x : Z) : Z := if x =? 0 then 1 else 0.

(** A scalar used as a condition ([if (x)], [while (x)]) holds when it is
    not zero. *)
Definition c_true (x : Z) : bool := negb (x =? 0).

Definition b2z (b : bool) : Z := if b then 1 else 0.

(** ** Air sensor constants *)

Definition AIR_ADDR : Z := Z.shiftl 0x5A 1.

Definition AIR_STATUS_REG : Z := 0x00.
Definition AIR_STATUS_ERROR_MASK : Z := 0x01.
Definition AIR_STATUS_DATA_READY_MASK : Z := 0x08.
Definition AIR_STATUS_APP_VALID_MASK : Z := 0x16.
Definition AIR_STATUS_FW_MODE_MASK : Z := 0x80.
Definition AIR_STATUS_FW_MODE_BOOT : Z := 0.
Definition AIR_STATUS_FW_MODE_APP : Z := 1.

Definition AIR_MODE_REG : Z := 0x01.
Definition AIR_MODE_DRIVE_MODE_MASK : Z := 0x70.
Definition AIR_MODE_IDLE : Z := 0x00.
Definition AIR_MODE_1_SECOND : Z := 0x01.

Definition AIR_ERROR_ID_REG : Z := 0xE0.
Definition AIR_ERROR_ID_BAD_WRITE : Z := 0x00.
Definition AIR_ERROR_ID_BAD_READ : Z := 0x01.
Definition AIR_ERROR_ID_BAD_MODE : Z := 0x02.
Definition AIR_ERROR_ID_MAX_RESISTANCE : Z := 0x03.
Definition AIR_ERROR_ID_HEATER_FAULT : Z := 0x04.
Definition AIR_ERROR_ID_HEATER_SUPPLY : Z := 0x05.

Definition AIR_ALG_RESULT_DATA_REG : Z := 0x02.

Definition AIR_BOOT_APP_START_REG : Z := 0xF4.

(** ** Structures *)

(** Air sensor status register fields; every field is a [char]. *)
Record air_status_t : Type := mk_air_status {
  fw_mode : Z;
  app_valid : Z;
  error : Z;
  data_ready : Z;
  raw : Z
}.

(** Air sensor algorithm result data; both fields are [uint16_t]. *)
Record air_alg_result_t : Type := mk_air_alg_result {
  eco2 : Z;
  tvoc : Z
}.

(** ** Register contents: the pure computations inside the driver functions *)

(** The five field stores at the end of [air_read_status]. *)
Definition unpack_air_status (raw_status : Z) : air_status_t :=
  {| fw_mode := to_char (Z.shiftr (Z.land raw_status AIR_STATUS_FW_MODE_MASK) 7);
     app_valid := to_char (Z.shiftr (Z.land raw_status AIR_STATUS_APP_VALID_MASK) 4);
     data_ready := to_char (Z.shiftr (Z.land raw_status AIR_STATUS_DATA_READY_MASK) 3);
     error := to_char (Z.land raw_status AIR_STATUS_ERROR_MASK);
     raw := raw_status |}.

(** The [switch] of [air_die]: the text chosen for an error id. *)
Definition str_air_error_id (air_error_id : Z) : string :=
  if air_error_id =? AIR_ERROR_ID_BAD_WRITE then
    "a write occurred for an invalid register address"
  else if air_error_id =? AIR_ERROR_ID_BAD_READ then
    "a read occurred for an invalid register address"
  else if air_error_id =? AIR_ERROR_ID_BAD_MODE then
    "the measurement drive mode is invalid"
  else if air_error_id =? AIR_ERROR_ID_MAX_RESISTANCE then
    "the resistance is set too high"
  else if air_error_id =? AIR_ERROR_ID_HEATER_FAULT then
    "the heater's current was not in range"
  else if air_error_id =? AIR_ERROR_ID_HEATER_SUPPLY then
    "the heater's voltage is not being applied correctly"
  else
    "unknown error!".

(** The bit packing of [air_write_mode]: from the mode byte read back from
    the sensor and the requested drive mode to the byte that is written.
    The local variables keep their names. *)
Definition write_measurement_mode (measurement_mode drive_mode : Z) : Z :=
  let write_drive_mode := to_char (Z.shiftl drive_mode 4) in
  let measurement_mode :=
    to_char (Z.land measurement_mode (c_not AIR_MODE_DRIVE_MODE_MASK)) in
  to_char (Z.lor write_drive_mode measurement_mode).

(** The drive mode field extraction of [air_read_mode]. *)
Definition unpack_drive_mode (air_mode_buf : Z) : Z :=
  to_char (Z.shiftr (Z.land air_mode_buf AIR_MODE_DRIVE_MODE_MASK) 4).

(** The two stores at the end of [air_read_alg_result], [buf] being the four
    bytes read. *)
Definition unpack_alg_result (buf : list Z) : air_alg_result_t :=
  {| eco2 := to_uint16 (Z.lor (Z.shiftl (nth 0 buf 0) 8) (nth 1 buf 0));
     tvoc := to_uint16 (Z.lor (Z.shiftl (nth 2 buf 0) 8) (nth 3 buf 0)) |}.

(** ** The bus and the outside world *)

(** The Mbed [I2C] interface as the driver uses it: [write(address, data,
    length)] and [read(address, data, length)], both returning 0 on
    success.  [D] is the state of whatever answers on the bus;
    [i2c_read] returns the return code and the contents of the buffer. *)
Class I2C (D : Type) : Type := {
  i2c_write : D -> Z -> list Z -> Z * D;
  i2c_read : D -> Z -> nat -> (Z * list Z) * D
}.

(** Arguments of a [printf]-style call. *)
Inductive fmt_arg : Type :=
| ArgStr (s : string)
| ArgInt (z : Z).

(** What the program does that can be observed from outside, plus
    [EStatus], which records each status decoded by [air_read_status]. *)
Inductive event : Type :=
| EWrite (address : Z) (data : list Z) (rc : Z)
| ERead (address : Z) (length : nat) (data : list Z) (rc : Z)
| EPrintf (fmt : string) (args : list fmt_arg)
| EWait
| EStatus (st : air_status_t).

(** How a computation ends: it returns, the process exits ([exit(code)]),
    or the loop bound of the model is used up while it is still running. *)
Inductive result (A : Type) : Type :=
| Ret (a : A)
| Exited (code : Z)
| Running.

Arguments Ret {A} a.
Arguments Exited {A} code.
Arguments Running {A}.

(** The state threaded through the program: the bus and the events so
    far, the newest first. *)
Record world (D : Type) : Type := mk_world {
  bus : D;
  log : list event
}.

Arguments mk_world {D} bus log.
Arguments bus {D} w.
Arguments log {D} w.

Definition M (D A : Type) : Type := world D -> result A * world D.

Section Driver.

Context {D : Type} `{I2C D}.

Definition ret {A : Type} (a : A) : M D A := fun w => (Ret a, w).

Definition bind {A B : Type} (m : M D A) (k : A -> M D B) : M D B :=
  fun w =>
    match m w with
    | (Ret a, w') => k a w'
    | (Exited code, w') => (Exited code, w')
    | (Running, w') => (Running, w')
    end.

Notation "x <- m ;; k" := (bind m (fun x => k))
  (at level 61, m at next level, right associativity).
Notation "m ;; k" := (bind m (fun _ => k))
  (at level 61, right associativity).

Definition emit (e : event) : M D unit :=
  fun w => (Ret tt, {| bus := bus w; log := e :: log w |}).

Definition exit {A : Type} (code : Z) : M D A := fun w => (Exited code, w).

Definition out_of_fuel {A : Type} : M D A := fun w => (Running, w).

(** [i2c.write(address, data, length)], the length being that of [data]. *)
Definition write (address : Z) (data : list Z) : M D Z :=
  fun w =>
    let '(rc, d) := i2c_write (bus w) address data in
    (Ret rc, {| bus := d; log := EWrite address data rc :: log w |}).

(** [i2c.read(address, data, length)]. *)
Definition read (address : Z) (length : nat) : M D (Z * list Z) :=
  fun w =>
    let '(rc, buf, d) := i2c_read (bus w) address length in
    (Ret (rc, buf), {| bus := d; log := ERead address length buf rc :: log w |}).

Definition printf (fmt : string) (args : list fmt_arg) : M D unit :=
  emit (EPrintf fmt args).

(** [wait(0.5)]. *)
Definition wait : M D unit := emit EWait.

(** [if (c) { m }] *)
Definition when (c : bool) (m : M D unit) : M D unit :=
  if c then m else ret tt.

(** ** The driver *)

(** String literals are kept as the source spells them, escapes included.
    A byte taken from a buffer that a read has filled is a [char]: the
    value the bus returned is cut to 8 bits by [to_char], and a position
    the bus left unfilled reads as 0. *)

Definition die {A : Type} (fmt : string) (args : list fmt_arg) : M D A :=
  printf fmt args ;;
  printf "\r\n" [] ;;
  exit 1.

Definition air_read_status : M D air_status_t :=
  rc <- write AIR_ADDR [AIR_STATUS_REG] ;;
  when (negb (rc =? 0))
    (die "air: read_status: failed to select status register" []) ;;
  r <- read AIR_ADDR 1 ;;
  when (negb (fst r =? 0))
    (die "air: read_status: failed to read air status register" []) ;;
  let raw_status := to_char (nth 0 (snd r) 0) in
  let air_status := unpack_air_status raw_status in
  emit (EStatus air_status) ;;
  ret air_status.

Definition air_read_error_id : M D Z :=
  rc <- write AIR_ADDR [AIR_ERROR_ID_REG] ;;
  when (negb (rc =? 0))
    (die "air: read_error_id: failed to select error id register" []) ;;
  r <- read AIR_ADDR 1 ;;
  when (negb (fst r =? 0))
    (die "air: read_error_id: failed to read error id" []) ;;
  let air_error_id := to_char (nth 0 (snd r) 0) in
  ret air_error_id.

Definition air_die : M D unit :=
  air_status <- air_read_status ;;
  when (c_true (error air_status))
    (air_error_id <- air_read_error_id ;;
     die "air: error: %s\r\n" [ArgStr (str_air_error_id air_error_id)]).

Definition air_boot : M D unit :=
  air_status <- air_read_status ;;
  if fw_mode air_status =? AIR_STATUS_FW_MODE_APP then
    ret tt
  else
    when (c_true (c_not (app_valid air_status)))
      (die "air: boot: cannot boot, invalid app on device" []) ;;
    rc <- write AIR_ADDR [AIR_BOOT_APP_START_REG] ;;
    when (negb (rc =? 0))
      (die "air: boot: failed to boot" []).

Definition air_read_mode : M D Z :=
  rc <- write AIR_ADDR [AIR_MODE_REG] ;;
  when (negb (rc =? 0))
    (die "air: read_mode: failed to set drive mode to constant high freq" []) ;;
  r <- read AIR_ADDR 1 ;;
  when (negb (fst r =? 0))
    (die "air: read_mode: failed to read mode register" []) ;;
  let air_mode_buf := to_char (nth 0 (snd r) 0) in
  ret (unpack_drive_mode air_mode_buf).

Definition air_write_mode (drive_mode : Z) : M D unit :=
  rc <- write AIR_ADDR [AIR_MODE_REG] ;;
  when (negb (rc =? 0))
    (die "air: write_mode: failed to select measurement mode register" []) ;;
  r <- read AIR_ADDR 1 ;;
  when (negb (fst r =? 0))
    (die "air: write_mode: failed to read measurement mode register" []) ;;
  let measurement_mode := to_char (nth 0 (snd r) 0) in
  let buf := [AIR_MODE_REG; write_measurement_mode measurement_mode drive_mode] in
  rc <- write AIR_ADDR buf ;;
  when (negb (rc =? 0))
    (die "air: write_mode: failed to write mode %d" [ArgInt drive_mode]).

Definition air_read_alg_result : M D air_alg_result_t :=
  rc <- write AIR_ADDR [AIR_ALG_RESULT_DATA_REG] ;;
  when (negb (rc =? 0))
    (die "air: read_alg_result: failed to select alg result data register" []) ;;
  r <- read AIR_ADDR 4 ;;
  when (negb (fst r =? 0))
    (die "air: read_alg_result: failed to read alg result data register" []) ;;
  let buf := map to_char (snd r) in
  ret (unpack_alg_result buf).

(** The [do ... while (!air_status.data_ready)] loop of [main], at most
    [fuel] rounds of it. *)
Fixpoint poll (fuel : nat) : M D air_status_t :=
  match fuel with
  | O => out_of_fuel
  | S fuel' =>
      printf "air: polling status until data ready\r\n" [] ;;
      air_status <- air_read_status ;;
      air_die ;;
      wait ;;
      if c_true (c_not (data_ready air_status)) then poll fuel'
      else ret air_status
  end.

(** The [while (1)] loop of [main], at most [fuel] rounds of it. *)
Fixpoint main_loop (fuel : nat) : M D unit :=
  match fuel with
  | O => out_of_fuel
  | S fuel' =>
      air_status <- air_read_status ;;
      air_status <- poll fuel' ;;
      printf "air: data ready\r\n" [] ;;
      air_alg_result <- air_read_alg_result ;;
      printf "air: tvoc=%d\r\n" [ArgInt (tvoc air_alg_result)] ;;
      main_loop fuel'
  end.

Definition main (fuel : nat) : M D unit :=
  printf "air: booting\r\n" [] ;;
  air_boot ;;
  air_die ;;
  printf "air: booted\r\n" [] ;;
  printf "air: setting measurement mode\r\n" [] ;;
  air_write_mode AIR_MODE_1_SECOND ;;
  air_die ;;
  printf "air: set measurement mode\r\n" [] ;;
  main_loop fuel.

End Driver.

(** ** Reading the log *)

(** A write transaction addressed to the boot register: its first byte,
    the register address, is [AIR_BOOT_APP_START_REG]. *)
Definition is_boot_write (e : event) : bool :=
  match e with
  | EWrite _ (reg :: _) _ => reg =? AIR_BOOT_APP_START_REG
  | _ => false
  end.

Definition is_write (e : event) : bool :=
  match e with
  | EWrite _ _ _ => true
  | _ => false
  end.

(** Number of [i2c.write] calls in a log. *)
Definition bus_writes (l : list event) : nat :=
  List.length (filter is_write l).

(** Number of writes to the boot register in a log. *)
Definition boot_writes (l : list event) : nat :=
  List.length (filter is_boot_write l).

(** The status decoded last in a log (the newest event comes first). *)
Fixpoint last_status (l : list event) : option air_status_t :=
  match l with
  | [] => None
  | EStatus st :: _ => Some st
  | _ :: l' => last_status l'
  end.

(** A decoded status under which the boot command may be given: the
    application is valid and the firmware is not already in application
    mode. *)
Definition may_boot (st : air_status_t) : bool :=
  c_true (app_valid st) && negb (fw_mode st =? AIR_STATUS_FW_MODE_APP).

(** Every write to the boot register in the log comes at a moment when the
    status decoded last allows the boot command. *)
Fixpoint boot_guarded (l : list event) : bool :=
  match l with
  | [] => true
  | e :: l' =>
      (if is_boot_write e then
         match last_status l' with
         | Some st => may_boot st
         | None => false
         end
       else true) && boot_guarded l'
  end.

(** A computation keeps the guard when, started on a guarded log, it
    leaves a guarded log, however it ends. *)
Definition keeps_guard (D : Type) {A : Type} (m : M D A) : Prop :=
  forall w, boot_guarded (log w) = true ->
            boot_guarded (log (snd (m w))) = true.

(** ** The register codec in the words of the specification

    These definitions follow the specification's description of the
    codec, not the source; the theorems compare the driver with them. *)

(** [encode_mode_write]: clear the drive-mode bit field (bits 4-6) of the
    current mode byte and OR in [drive_mode << 4]. *)
Definition encode_mode_write_spec (current_mode_byte drive_mode : Z) : Z :=
  Z.lor (Z.land current_mode_byte (Z.lnot AIR_MODE_DRIVE_MODE_MASK))
        (Z.shiftl drive_mode 4).

(** A drive mode is a value of the 3-bit drive-mode field. *)
Definition is_drive_mode (d : Z) : Prop := 0 <= d < 8.

(** The enumerated sensor faults. *)
Inductive ErrorId : Type :=
| BadWrite
| BadRead
| BadMode
| MaxResistance
| HeaterFault
| HeaterSupply
| Unknown (raw : Z).

(** [decode_error_id]: raw byte 0-5 to the enumerated faults, any other
    value to [Unknown raw]. *)
Definition decode_error_id_spec (byte : Z) : ErrorId :=
  match byte with
  | 0 => BadWrite
  | 1 => BadRead
  | 2 => BadMode
  | 3 => MaxResistance
  | 4 => HeaterFault
  | 5 => HeaterSupply
  | _ => Unknown byte
  end.

(** The fixed message of each fault, as [air_die] words it. *)
Definition ErrorId_message (e : ErrorId) : string :=
  match e with
  | BadWrite => "a write occurred for an invalid register address"
  | BadRead => "a read occurred for an invalid register address"
  | BadMode => "the measurement drive mode is invalid"
  | MaxResistance => "the resistance is set too high"
  | HeaterFault => "the heater's current was not in range"
  | HeaterSupply => "the heater's voltage is not being applied correctly"
  | Unknown _ => "unknown error!"
  end.

(** Two faults are of the same kind when they are the same enumerated
    fault or both unknown. *)
Definition same_kind (e1 e2 : ErrorId) : bool :=
  match e1, e2 with
  | BadWrite, BadWrite | BadRead, BadRead | BadMode, BadMode
  | MaxResistance, MaxResistance | HeaterFault, HeaterFault
  | HeaterSupply, HeaterSupply | Unknown _, Unknown _ => true
  | _, _ => false
  end.

(** Big-endian 16-bit value of two bytes. *)
Definition big_endian16 (hi lo : Z) : Z := hi * 256 + lo.

(** ** A simulated sensor

    A register-level stand-in for the chip, to run the driver on concrete
    inputs: a one-byte write selects a register (or, for the boot
    register, starts a valid application), a two-byte write to the mode
    register stores the byte, a read returns the selected register. *)
Record sensor : Type := mk_sensor {
  pointer : Z;
  status : Z;
  meas_mode : Z;
  error_id : Z;
  alg_result_data : list Z
}.

Definition sensor_register (s : sensor) (reg : Z) : list Z :=
  if reg =? AIR_STATUS_REG then [status s]
  else if reg =? AIR_MODE_REG then [meas_mode s]
  else if reg =? AIR_ALG_RESULT_DATA_REG then alg_result_data s
  else if reg =? AIR_ERROR_ID_REG then [error_id s]
  else [].

Definition sensor_write (s : sensor) (address : Z) (data : list Z) : Z * sensor :=
  if address =? AIR_ADDR then
    match data with
    | [reg] =>
        if reg =? AIR_BOOT_APP_START_REG then
          if Z.testbit (status s) 4 then
            (0, mk_sensor reg (Z.lor (status s) 0x80) (meas_mode s)
                  (error_id s) (alg_result_data s))
          else
            (0, mk_sensor reg (Z.lor (status s) 0x01) (meas_mode s)
                  (error_id s) (alg_result_data s))
        else
          (0, mk_sensor reg (status s) (meas_mode s) (error_id s)
                (alg_result_data s))
    | [reg; v] =>
        if reg =? AIR_MODE_REG then
          (0, mk_sensor reg (status s) v (error_id s) (alg_result_data s))
        else
          (0, mk_sensor reg (Z.lor (status s) 0x01) (meas_mode s)
                AIR_ERROR_ID_BAD_WRITE (alg_result_data s))
    | _ => (1, s)
    end
  else (1, s).

Definition sensor_read (s : sensor) (address : Z) (length : nat)
  : (Z * list Z) * sensor :=
  if address =? AIR_ADDR then
    ((0, firstn length (sensor_register s (pointer s))), s)
  else ((1, []), s).

#[export] Instance sensor_I2C : I2C sensor := {
  i2c_write := sensor_write;
  i2c_read := sensor_read
}.

(** A sensor with the given register contents, nothing selected yet. *)
Definition sensor_with (status meas_mode error_id : Z) (alg : list Z) : sensor :=
  mk_sensor 0 status meas_mode error_id alg.

(** A bus on which nothing is acknowledged. *)
#[export] Instance dead_bus : I2C unit := {
  i2c_write := fun d _ _ => (1, d);
  i2c_read := fun d _ _ => ((1, []), d)
}.

(** ** Reading the log: transactions, their order and their outcome *)

(** A bus transaction. *)
Definition is_bus (e : event) : bool :=
  match e with
  | EWrite _ _ _ | ERead _ _ _ _ => true
  | _ => false
  end.

(** A bus transaction that was acknowledged (return code 0); other events
    count as acknowledged. *)
Definition acked (e : event) : bool :=
  match e with
  | EWrite _ _ rc | ERead _ _ _ rc => rc =? 0
  | _ => true
  end.

(** Every transaction older than the newest one was acknowledged. *)
Fixpoint all_but_newest_acked (l : list event) : bool :=
  match l with
  | [] => true
  | e :: l' => if is_bus e then forallb acked l' else all_but_newest_acked l'
  end.

(** Every event of the log passes [check], which sees the event and the
    log before it. *)
Fixpoint log_ok (check : event -> list event -> bool) (l : list event) : bool :=
  match l with
  | [] => true
  | e :: l' => check e l' && log_ok check l'
  end.

Definition keeps_log (D : Type) (check : event -> list event -> bool)
    {A : Type} (m : M D A) : Prop :=
  forall w, log_ok check (log w) = true ->
            log_ok check (log (snd (m w))) = true.

(** The payloads of the write transactions found in the driver as [main]
    uses it: the five register selects and the mode write. *)
Definition main_payloads : list (list Z) :=
  [[AIR_STATUS_REG]; [AIR_ERROR_ID_REG]; [AIR_MODE_REG];
   [AIR_ALG_RESULT_DATA_REG]; [AIR_BOOT_APP_START_REG];
   [AIR_MODE_REG; 0x10]].

Definition payload_eqb (p q : list Z) : bool :=
  if list_eq_dec Z.eq_dec p q then true else false.

(** A transaction addressed to the sensor, writing one of [main_payloads]
    or reading 1 or 4 bytes. *)
Definition on_protocol (e : event) (_ : list event) : bool :=
  match e with
  | EWrite address data _ =>
      (address =? AIR_ADDR) && existsb (payload_eqb data) main_payloads
  | ERead address length _ _ =>
      (address =? AIR_ADDR) && (Nat.eqb length 1 || Nat.eqb length 4)
  | _ => true
  end.

(** A read comes right after the acknowledged one-byte write that selects
    its register, at the same address, and asks for 4 bytes of the result
    register, for 1 byte of any other. *)
Definition read_follows_select (e : event) (l : list event) : bool :=
  match e with
  | ERead address length _ _ =>
      match l with
      | EWrite address' [reg] rc :: _ =>
          (address' =? address) && (rc =? 0)
          && Nat.eqb length (if reg =? AIR_ALG_RESULT_DATA_REG then 4 else 1)
      | _ => false
      end
  | _ => true
  end.

(** The statuses decoded in a log, the newest first. *)
Fixpoint statuses (l : list event) : list air_status_t :=
  match l with
  | [] => []
  | EStatus st :: l' => st :: statuses l'
  | _ :: l' => statuses l'
  end.

Definition is_result_select (e : event) : bool :=
  match e with
  | EWrite _ (reg :: _) _ => reg =? AIR_ALG_RESULT_DATA_REG
  | _ => false
  end.

(** The result register is selected when the status decoded last shows no
    error and the one decoded before it shows data ready. *)
Definition result_after_data_ready (e : event) (l : list event) : bool :=
  if is_result_select e then
    match statuses l with
    | st_check :: st_poll :: _ =>
        negb (c_true (error st_check)) && c_true (data_ready st_poll)
    | _ => false
    end
  else true.

(** The log ends with a diagnostic line: a [printf]-style print followed by
    the print of the line end, as [die] leaves it. *)
Definition diag_last (l : list event) : bool :=
  match l with
  | EPrintf nl [] :: EPrintf _ _ :: _ => String.eqb nl "\r\n"
  | _ => false
  end.

(** A computation, started on a log where [inv] holds, either exits with
    code 1 leaving a log where [fin] holds, or leaves a log where [inv]
    still holds. *)
Definition run_ok (D : Type) (inv fin : list event -> bool)
    {A : Type} (m : M D A) : Prop :=
  forall w, inv (log w) = true ->
    match fst (m w) with
    | Exited code => code = 1 /\ fin (log (snd (m w))) = true
    | _ => inv (log (snd (m w))) = true
    end.

(** A two-byte write to the mode register. *)
Definition is_mode_write (e : event) : bool :=
  match e with
  | EWrite _ [reg; _] _ => reg =? AIR_MODE_REG
  | _ => false
  end.

(** Number of events of a log that satisfy [p]. *)
Definition count_events (p : event -> bool) (l : list event) : nat :=
  List.length (filter p l).

(** A computation adds at most [n] events that satisfy [p]. *)
Definition adds_at_most (D : Type) (p : event -> bool) (n : nat)
    {A : Type} (m : M D A) : Prop :=
  forall w, (count_events p (log (snd (m w))) <= n + count_events p (log w))%nat.

(** The computation came back to its caller. *)
Definition returned {A : Type} (r : result A) : bool :=
  match r with
  | Ret _ => true
  | _ => false
  end.

(** A bus on which writes are acknowledged and reads are not. *)
Definition mute_bus : I2C unit := {|
  i2c_write := fun d _ _ => (0, d);
  i2c_read := fun d _ _ => ((1, []), d)
|}.

(** The measurement report of [main] shows the [tvoc] decoded from the
    acknowledged 4-byte read made just before it. *)
Definition reports_last_read (e : event) (l : list event) : bool :=
  match e with
  | EPrintf fmt args =>
      if String.eqb fmt "air: tvoc=%d\r\n" then
        match args, l with
        | [ArgInt v], ERead _ 4 buf rc :: _ =>
            (rc =? 0) && (v =? tvoc (unpack_alg_result (map to_char buf)))
        | _, _ => false
        end
      else true
  | _ => true
  end.

(** * Properties *)

(** ** C integers *)

Lemma to_char_small (c : Z) : is_char c -> to_char c = c.
Proof. intros Hc. unfold to_char. apply Z.mod_small. exact Hc. Qed.

Lemma to_char_is_char (z : Z) : is_char (to_char z).
Proof. unfold is_char, to_char. apply Z.mod_pos_bound. lia. Qed.

Lemma to_char_idem (z : Z) : to_char (to_char z) = to_char z.
Proof. apply to_char_small, to_char_is_char. Qed.

(** A mask with a single bit set keeps that bit only. *)
Lemma land_pow2_shiftr (x k : Z) :
  0 <= k -> Z.shiftr (Z.land x (2 ^ k)) k = b2z (Z.testbit x k).
Proof.
  intros Hk. apply Z.bits_inj'. intros n Hn.
  rewrite Z.shiftr_spec, Z.land_spec, Z.pow2_bits_eqb by lia.
  destruct (Z.eqb_spec k (n + k)) as [E|E].
  - assert (n = 0) by lia. subst n. simpl.
    rewrite andb_true_r.
    destruct (Z.testbit x k); reflexivity.
  - rewrite andb_false_r.
    destruct (Z.testbit x k); simpl.
    + symmetry. destruct n; try reflexivity; lia.
    + symmetry. apply Z.bits_0.
Qed.

Lemma b2z_is_char (b : bool) : is_char (b2z b).
Proof. destruct b; unfold is_char; simpl; lia. Qed.

(** Above bit 3, the mask [0x16] has the same bits as [0x10]. *)
Lemma app_valid_mask_high_bits (n : Z) :
  0 <= n ->
  Z.testbit AIR_STATUS_APP_VALID_MASK (n + 4) = Z.testbit 0x10 (n + 4).
Proof.
  intros Hn.
  destruct (Z.eq_dec n 0) as [->|Hne]; [reflexivity|].
  assert (Hhigh : forall m, 0 <= m < 32 -> Z.testbit m (n + 4) = false).
  { intros m Hm. destruct (Z.eq_dec m 0) as [->|Hm0]; [apply Z.bits_0|].
    apply Z.bits_above_log2; [lia|].
    apply Z.log2_lt_pow2; [lia|].
    apply Z.lt_le_trans with (2 ^ 5); [simpl; lia|].
    apply Z.pow_le_mono_r; lia. }
  rewrite !Hhigh; [reflexivity| |]; unfold AIR_STATUS_APP_VALID_MASK; lia.
Qed.

Lemma app_valid_mask_single_bit (b : Z) :
  Z.shiftr (Z.land b AIR_STATUS_APP_VALID_MASK) 4 = Z.shiftr (Z.land b 0x10) 4.
Proof.
  apply Z.bits_inj'. intros n Hn.
  rewrite !Z.shiftr_spec, !Z.land_spec by lia.
  rewrite app_valid_mask_high_bits by lia. reflexivity.
Qed.

(** The fields of a decoded status in terms of the bits of the raw byte;
    no range is needed for the four flags. *)
Lemma unpack_air_status_fields (b : Z) :
  fw_mode (unpack_air_status b) = b2z (Z.testbit b 7) /\
  app_valid (unpack_air_status b) = b2z (Z.testbit b 4) /\
  data_ready (unpack_air_status b) = b2z (Z.testbit b 3) /\
  error (unpack_air_status b) = b2z (Z.testbit b 0) /\
  raw (unpack_air_status b) = b.
Proof.
  unfold unpack_air_status; simpl.
  rewrite app_valid_mask_single_bit.
  change AIR_STATUS_FW_MODE_MASK with (2 ^ 7).
  change 0x10 with (2 ^ 4).
  change AIR_STATUS_DATA_READY_MASK with (2 ^ 3).
  replace (Z.land b AIR_STATUS_ERROR_MASK)
    with (Z.shiftr (Z.land b (2 ^ 0)) 0) by apply Z.shiftr_0_r.
  rewrite !land_pow2_shiftr by lia.
  rewrite !to_char_small by apply b2z_is_char.
  repeat split.
Qed.

Lemma unpack_air_status_flags (b : Z) :
  let st := unpack_air_status b in
  (fw_mode st = 0 \/ fw_mode st = 1) /\
  (app_valid st = 0 \/ app_valid st = 1) /\
  (data_ready st = 0 \/ data_ready st = 1) /\
  (error st = 0 \/ error st = 1).
Proof.
  cbv zeta.
  destruct (unpack_air_status_fields b) as (-> & -> & -> & -> & _).
  repeat split;
    match goal with |- context [Z.testbit b ?k] =>
      destruct (Z.testbit b k); simpl; auto
    end.
Qed.

(** ** Algorithm result *)

(** A byte ORed below a value shifted left by 8 is added to it. *)
Lemma lor_shiftl8 (hi lo : Z) :
  is_char lo -> Z.lor (Z.shiftl hi 8) lo = big_endian16 hi lo.
Proof.
  intros Hlo. unfold big_endian16.
  rewrite Z.shiftl_mul_pow2 by lia.
  change (2 ^ 8) with 256.
  rewrite <- Z.lxor_lor, <- Z.add_nocarry_lxor; try reflexivity.
  all: apply Z.bits_inj'; intros n Hn;
    rewrite Z.land_spec, Z.bits_0;
    destruct (Z.lt_ge_cases n 8) as [Hlt|Hge].
  1,3: change 256 with (2 ^ 8); rewrite Z.mul_pow2_bits_low by lia; reflexivity.
  all: replace (Z.testbit lo n) with false; [apply andb_false_r|];
    symmetry; rewrite <- (Z.mod_small lo (2 ^ 8)) by exact Hlo;
    apply Z.mod_pow2_bits_high; lia.
Qed.

Lemma big_endian16_range (hi lo : Z) :
  is_char hi -> is_char lo -> 0 <= big_endian16 hi lo < 65536.
Proof. unfold is_char, big_endian16. lia. Qed.

Lemma unpack_alg_result_big_endian (b0 b1 b2 b3 : Z) :
  is_char b0 -> is_char b1 -> is_char b2 -> is_char b3 ->
  unpack_alg_result [b0; b1; b2; b3]
  = {| eco2 := big_endian16 b0 b1; tvoc := big_endian16 b2 b3 |}.
Proof.
  intros H0 H1 H2 H3. unfold unpack_alg_result. cbn [nth].
  rewrite !lor_shiftl8 by assumption.
  unfold to_uint16.
  rewrite !Z.mod_small by (apply big_endian16_range; assumption).
  reflexivity.
Qed.

(** ** Mode register *)

Lemma c_not_drive_mode_mask : c_not AIR_MODE_DRIVE_MODE_MASK = 0.
Proof. reflexivity. Qed.

(** Whatever the mode byte read back, the byte written is the drive mode
    shifted into place and cut to a [char]. *)
Lemma write_measurement_mode_eq (b d : Z) :
  write_measurement_mode b d = to_char (Z.shiftl d 4).
Proof.
  unfold write_measurement_mode.
  rewrite c_not_drive_mode_mask, Z.land_0_r.
  change (to_char 0) with 0.
  rewrite Z.lor_0_r. apply to_char_idem.
Qed.

Lemma drive_mode_shifted (d : Z) :
  is_drive_mode d -> Z.shiftl d 4 = 16 * d /\ is_char (Z.shiftl d 4).
Proof.
  intros Hd. rewrite Z.shiftl_mul_pow2 by lia.
  change (2 ^ 4) with 16. unfold is_drive_mode, is_char in *. lia.
Qed.

(** The codec as the specification words it does keep the bits outside
    the drive-mode field. *)
Lemma encode_mode_write_spec_preserves (b d : Z) :
  is_drive_mode d ->
  Z.land (encode_mode_write_spec b d) (Z.lnot 0x70) = Z.land b (Z.lnot 0x70).
Proof.
  intros Hd. unfold encode_mode_write_spec.
  rewrite Z.land_lor_distr_l.
  change AIR_MODE_DRIVE_MODE_MASK with 0x70.
  rewrite <- Z.land_assoc, Z.land_diag.
  replace (Z.land (Z.shiftl d 4) (Z.lnot 0x70)) with 0; [apply Z.lor_0_r|].
  symmetry. apply Z.bits_inj'. intros n Hn.
  rewrite Z.land_spec, Z.bits_0, Z.lnot_spec by lia.
  destruct (Z.lt_ge_cases n 4) as [Hlt|Hge].
  - rewrite Z.shiftl_spec_low by lia. reflexivity.
  - destruct (Z.lt_ge_cases n 7) as [Hlt7|Hge7].
    + assert (Hn456 : n = 4 \/ n = 5 \/ n = 6) by lia.
      destruct Hn456 as [->|[->| ->]]; apply andb_false_r.
    + rewrite Z.shiftl_spec by lia.
      replace (Z.testbit d (n - 4)) with false; [reflexivity|].
      symmetry. rewrite <- (Z.mod_small d (2 ^ 3)) by exact Hd.
      apply Z.mod_pow2_bits_high. lia.
Qed.

(** ** Error id *)

Lemma str_air_error_id_spec (id : Z) :
  str_air_error_id id = ErrorId_message (decode_error_id_spec id).
Proof.
  unfold str_air_error_id.
  repeat match goal with
  | |- context [id =? ?c] => destruct (Z.eqb_spec id c) as [->|?]; [reflexivity|]
  end.
  assert (Hother : decode_error_id_spec id = Unknown id).
  { unfold decode_error_id_spec, AIR_ERROR_ID_BAD_WRITE, AIR_ERROR_ID_BAD_READ,
      AIR_ERROR_ID_BAD_MODE, AIR_ERROR_ID_MAX_RESISTANCE,
      AIR_ERROR_ID_HEATER_FAULT, AIR_ERROR_ID_HEATER_SUPPLY in *.
    destruct id as [|p|p]; try reflexivity; try lia.
    do 3 (destruct p as [p|p|]; try reflexivity; try lia). }
  rewrite Hother. reflexivity.
Qed.

Lemma ErrorId_message_kind (e1 e2 : ErrorId) :
  ErrorId_message e1 = ErrorId_message e2 <-> same_kind e1 e2 = true.
Proof.
  split.
  - destruct e1, e2; simpl; intros E; try reflexivity; discriminate E.
  - destruct e1, e2; simpl; intros E; try reflexivity; discriminate E.
Qed.

(** ** Running the driver on a bus that answers *)

(** Unfolds a register access (select write, then read) whose two bus
    answers are given by [Hw] and [Hr]. *)
Ltac run_bus Hw Hr :=
  unfold bind, write, read, when, emit, ret; cbn [bus log];
  rewrite Hw; cbn [bus log negb Z.eqb];
  rewrite Hr; cbn [bus log fst snd negb Z.eqb nth map].

Section Runs.

Context {D : Type} `{I2C D}.

Lemma bind_ret {A B : Type} (m : M D A) (k : A -> M D B) w a w' :
  m w = (Ret a, w') -> bind m k w = k a w'.
Proof. intros E. unfold bind. rewrite E. reflexivity. Qed.

Lemma air_read_status_run d d1 d2 l b :
  is_char b ->
  i2c_write d AIR_ADDR [AIR_STATUS_REG] = (0, d1) ->
  i2c_read d1 AIR_ADDR 1 = (0, [b], d2) ->
  air_read_status (mk_world d l)
  = (Ret (unpack_air_status b),
     mk_world d2 (EStatus (unpack_air_status b)
                  :: ERead AIR_ADDR 1 [b] 0
                  :: EWrite AIR_ADDR [AIR_STATUS_REG] 0 :: l)).
Proof.
  intros Hb Hw Hr. unfold air_read_status.
  run_bus Hw Hr.
  rewrite to_char_small by exact Hb. reflexivity.
Qed.

Lemma air_read_error_id_run d d1 d2 l e :
  is_char e ->
  i2c_write d AIR_ADDR [AIR_ERROR_ID_REG] = (0, d1) ->
  i2c_read d1 AIR_ADDR 1 = (0, [e], d2) ->
  air_read_error_id (mk_world d l)
  = (Ret e, mk_world d2 (ERead AIR_ADDR 1 [e] 0
                         :: EWrite AIR_ADDR [AIR_ERROR_ID_REG] 0 :: l)).
Proof.
  intros Hb Hw Hr. unfold air_read_error_id.
  run_bus Hw Hr.
  rewrite to_char_small by exact Hb. reflexivity.
Qed.

Lemma air_read_alg_result_run d d1 d2 l b0 b1 b2 b3 :
  is_char b0 -> is_char b1 -> is_char b2 -> is_char b3 ->
  i2c_write d AIR_ADDR [AIR_ALG_RESULT_DATA_REG] = (0, d1) ->
  i2c_read d1 AIR_ADDR 4 = (0, [b0; b1; b2; b3], d2) ->
  air_read_alg_result (mk_world d l)
  = (Ret (unpack_alg_result [b0; b1; b2; b3]),
     mk_world d2 (ERead AIR_ADDR 4 [b0; b1; b2; b3] 0
                  :: EWrite AIR_ADDR [AIR_ALG_RESULT_DATA_REG] 0 :: l)).
Proof.
  intros H0 H1 H2 H3 Hw Hr. unfold air_read_alg_result.
  run_bus Hw Hr.
  rewrite !to_char_small by assumption. reflexivity.
Qed.

End Runs.

(** ** The boot command is guarded *)

Section Guard.

Context {D : Type} `{I2C D}.

Lemma keeps_ret {A : Type} (a : A) : keeps_guard D (ret a).
Proof. intros w Hw. exact Hw. Qed.

Lemma keeps_exit {A : Type} (code : Z) : keeps_guard D (@exit D A code).
Proof. intros w Hw. exact Hw. Qed.

Lemma keeps_out_of_fuel {A : Type} : keeps_guard D (@out_of_fuel D A).
Proof. intros w Hw. exact Hw. Qed.

Lemma keeps_bind {A B : Type} (m : M D A) (k : A -> M D B) :
  keeps_guard D m -> (forall a, keeps_guard D (k a)) -> keeps_guard D (bind m k).
Proof.
  intros Hm Hk w Hw. unfold bind.
  specialize (Hm w Hw).
  destruct (m w) as [[a|code|] w']; cbn [snd] in *; auto.
  apply Hk, Hm.
Qed.

Lemma keeps_emit (e : event) :
  is_boot_write e = false -> keeps_guard D (emit e).
Proof.
  intros He w Hw. unfold emit. cbn [snd log boot_guarded].
  rewrite He. exact Hw.
Qed.

Lemma keeps_printf fmt args : keeps_guard D (printf fmt args).
Proof. apply keeps_emit. reflexivity. Qed.

Lemma keeps_wait : keeps_guard D wait.
Proof. apply keeps_emit. reflexivity. Qed.

Lemma keeps_read address length : keeps_guard D (read address length).
Proof.
  intros w Hw. unfold read.
  destruct (i2c_read (bus w) address length) as [[rc buf] d].
  cbn [snd log boot_guarded is_boot_write andb]. exact Hw.
Qed.

(** A write to any register other than the boot register. *)
Lemma keeps_write address reg data :
  reg <> AIR_BOOT_APP_START_REG -> keeps_guard D (write address (reg :: data)).
Proof.
  intros Hreg w Hw. unfold write.
  destruct (i2c_write (bus w) address (reg :: data)) as [rc d].
  cbn [snd log boot_guarded is_boot_write].
  destruct (Z.eqb_spec reg AIR_BOOT_APP_START_REG); [contradiction|].
  exact Hw.
Qed.

Lemma keeps_when (c : bool) (m : M D unit) :
  keeps_guard D m -> keeps_guard D (when c m).
Proof. intros Hm. destruct c; [exact Hm|apply keeps_ret]. Qed.

Lemma keeps_die {A : Type} fmt args : keeps_guard D (@die D A fmt args).
Proof.
  unfold die.
  repeat (apply keeps_bind; [|intros ?]);
    auto using keeps_printf, keeps_exit.
Qed.

End Guard.

Create HintDb guard.

#[export] Hint Resolve keeps_ret keeps_exit keeps_out_of_fuel keeps_printf
  keeps_wait keeps_read keeps_when keeps_die : guard.

(** Splits a sequence of steps and closes every step that is in the hint
    database; writes are closed by [keeps_write]. *)
Ltac keeps :=
  repeat (apply keeps_bind; [|intros ?]);
  try (apply keeps_when);
  auto with guard;
  try (apply keeps_emit; reflexivity);
  try (apply keeps_write; discriminate).

Section GuardDriver.

Context {D : Type} `{I2C D}.

Lemma keeps_air_read_status : keeps_guard D air_read_status.
Proof. unfold air_read_status. keeps. Qed.

Lemma keeps_air_read_error_id : keeps_guard D air_read_error_id.
Proof. unfold air_read_error_id. keeps. Qed.

Lemma keeps_air_die : keeps_guard D air_die.
Proof.
  unfold air_die.
  apply keeps_bind; [apply keeps_air_read_status|intros st].
  apply keeps_when.
  apply keeps_bind; [apply keeps_air_read_error_id|intros id].
  apply keeps_die.
Qed.

Lemma keeps_air_write_mode drive_mode : keeps_guard D (air_write_mode drive_mode).
Proof. unfold air_write_mode. keeps. Qed.

Lemma keeps_air_read_alg_result : keeps_guard D air_read_alg_result.
Proof. unfold air_read_alg_result. keeps. Qed.

(** When [air_read_status] returns, the status it returns is the one
    decoded last. *)
Lemma air_read_status_last w st w' :
  air_read_status w = (Ret st, w') -> last_status (log w') = Some st.
Proof.
  unfold air_read_status, bind, write, read, when, die, printf, emit, exit, ret.
  destruct (i2c_write (bus w) AIR_ADDR [AIR_STATUS_REG]) as [rc d1].
  destruct (negb (rc =? 0)); [discriminate|].
  cbn [bus log].
  destruct (i2c_read d1 AIR_ADDR 1) as [[rc' buf] d2].
  cbn [fst snd]. destruct (negb (rc' =? 0)); [discriminate|].
  intros E. inversion E; subst. reflexivity.
Qed.

Lemma c_true_c_not (x : Z) : c_true (c_not x) = negb (c_true x).
Proof. unfold c_true, c_not. destruct (x =? 0); reflexivity. Qed.

Lemma keeps_air_boot : keeps_guard D air_boot.
Proof.
  intros w Hw. unfold air_boot, bind at 1.
  pose proof (keeps_air_read_status w Hw) as Hg.
  destruct (air_read_status w) as [[st|code|] w1] eqn:Est; cbn [snd] in *;
    try exact Hg.
  apply air_read_status_last in Est.
  destruct (fw_mode st =? AIR_STATUS_FW_MODE_APP) eqn:Efw; [exact Hg|].
  rewrite c_true_c_not.
  unfold bind, when, die, write, printf, emit, exit, ret.
  destruct (c_true (app_valid st)) eqn:Eapp; cbn [negb bus log snd].
  - destruct (i2c_write (bus w1) AIR_ADDR [AIR_BOOT_APP_START_REG]) as [rc d].
    assert (Hboot : boot_guarded
              (EWrite AIR_ADDR [AIR_BOOT_APP_START_REG] rc :: log w1) = true).
    { cbn [boot_guarded is_boot_write]. rewrite Z.eqb_refl, Est.
      unfold may_boot. rewrite Eapp, Efw, Hg. reflexivity. }
    destruct (negb (rc =? 0)); cbn [bus log snd boot_guarded is_boot_write andb];
      exact Hboot.
  - cbn [boot_guarded is_boot_write andb]. exact Hg.
Qed.

Lemma keeps_poll fuel : keeps_guard D (poll fuel).
Proof.
  induction fuel as [|fuel IH]; cbn [poll]; [apply keeps_out_of_fuel|].
  apply keeps_bind; [apply keeps_printf|intros _].
  apply keeps_bind; [apply keeps_air_read_status|intros st].
  apply keeps_bind; [apply keeps_air_die|intros _].
  apply keeps_bind; [apply keeps_wait|intros _].
  destruct (c_true (c_not (data_ready st))); [exact IH|apply keeps_ret].
Qed.

Lemma keeps_main_loop fuel : keeps_guard D (main_loop fuel).
Proof.
  induction fuel as [|fuel IH]; cbn [main_loop]; [apply keeps_out_of_fuel|].
  apply keeps_bind; [apply keeps_air_read_status|intros _].
  apply keeps_bind; [apply keeps_poll|intros _].
  apply keeps_bind; [apply keeps_printf|intros _].
  apply keeps_bind; [apply keeps_air_read_alg_result|intros r].
  apply keeps_bind; [apply keeps_printf|intros _].
  exact IH.
Qed.

Lemma keeps_main fuel : keeps_guard D (main fuel).
Proof.
  unfold main.
  repeat (apply keeps_bind; [|intros _]);
    auto using keeps_printf, keeps_air_boot, keeps_air_die,
      keeps_air_write_mode, keeps_main_loop.
Qed.

End GuardDriver.

(** * The claims *)

(** ** Status decode *)

(** C4.  [air_read_status], on a bus that delivers the status byte [b],
    returns a status whose [fw_mode] is bit 7 of [b], whose [app_valid] is
    bit 4 (that single bit), whose [data_ready] is bit 3, whose [error] is
    bit 0, and whose [raw] is [b] itself. *)
Theorem air_read_status_decodes_bits {D : Type} `{I2C D}
    (d d1 d2 : D) (l : list event) (b : Z) :
  is_char b ->
  i2c_write d AIR_ADDR [AIR_STATUS_REG] = (0, d1) ->
  i2c_read d1 AIR_ADDR 1 = (0, [b], d2) ->
  exists st,
    fst (air_read_status (mk_world d l)) = Ret st /\
    st = unpack_air_status b /\
    fw_mode st = b2z (Z.testbit b 7) /\
    app_valid st = b2z (Z.testbit b 4) /\
    data_ready st = b2z (Z.testbit b 3) /\
    error st = b2z (Z.testbit b 0) /\
    raw st = b.
Proof.
  intros Hb Hw Hr. exists (unpack_air_status b).
  rewrite (air_read_status_run d d1 d2 l b Hb Hw Hr).
  split; [reflexivity|]. split; [reflexivity|].
  apply unpack_air_status_fields.
Qed.

Lemma air_read_status_decodes_bits_witness :
  exists st,
    fst (air_read_status (mk_world (sensor_with 0x98 0 0 []) [])) = Ret st /\
    st = unpack_air_status 0x98 /\
    fw_mode st = 1 /\ app_valid st = 1 /\ data_ready st = 1 /\
    error st = 0 /\ raw st = 0x98.
Proof.
  apply (air_read_status_decodes_bits
           (sensor_with 0x98 0 0 []) (sensor_with 0x98 0 0 [])
           (sensor_with 0x98 0 0 []) [] 0x98).
  - unfold is_char. lia.
  - reflexivity.
  - reflexivity.
Defined.

(** C10.  For every raw status [b], decoding [app_valid] with the mask
    [0x16] of the source gives the same value as decoding it with the
    single-bit mask [0x10], and each of the four decoded flags is 0 or
    1. *)
Theorem app_valid_mask_equivalent (b : Z) :
  Z.shiftr (Z.land b AIR_STATUS_APP_VALID_MASK) 4 = Z.shiftr (Z.land b 0x10) 4 /\
  app_valid (unpack_air_status b) = to_char (Z.shiftr (Z.land b 0x10) 4) /\
  (fw_mode (unpack_air_status b) = 0 \/ fw_mode (unpack_air_status b) = 1) /\
  (app_valid (unpack_air_status b) = 0 \/ app_valid (unpack_air_status b) = 1) /\
  (data_ready (unpack_air_status b) = 0 \/ data_ready (unpack_air_status b) = 1) /\
  (error (unpack_air_status b) = 0 \/ error (unpack_air_status b) = 1).
Proof.
  split; [apply app_valid_mask_single_bit|].
  split.
  - unfold unpack_air_status. cbn [app_valid].
    rewrite app_valid_mask_single_bit. reflexivity.
  - apply (unpack_air_status_flags b).
Qed.

(** ** Algorithm result *)

(** C2.  [air_read_alg_result], on a bus that delivers the four bytes
    [b0 b1 b2 b3], returns [eco2] as the big-endian 16-bit value of
    [b0 b1] and [tvoc] as that of [b2 b3]. *)
Theorem air_read_alg_result_big_endian {D : Type} `{I2C D}
    (d d1 d2 : D) (l : list event) (b0 b1 b2 b3 : Z) :
  is_char b0 -> is_char b1 -> is_char b2 -> is_char b3 ->
  i2c_write d AIR_ADDR [AIR_ALG_RESULT_DATA_REG] = (0, d1) ->
  i2c_read d1 AIR_ADDR 4 = (0, [b0; b1; b2; b3], d2) ->
  unpack_alg_result [b0; b1; b2; b3]
  = {| eco2 := b0 * 256 + b1; tvoc := b2 * 256 + b3 |} /\
  fst (air_read_alg_result (mk_world d l))
  = Ret {| eco2 := b0 * 256 + b1; tvoc := b2 * 256 + b3 |}.
Proof.
  intros H0 H1 H2 H3 Hw Hr.
  rewrite (air_read_alg_result_run d d1 d2 l b0 b1 b2 b3 H0 H1 H2 H3 Hw Hr).
  rewrite (unpack_alg_result_big_endian b0 b1 b2 b3 H0 H1 H2 H3).
  split; reflexivity.
Qed.

(** The bytes [0x01 0x90 0x00 0x64] decode to [eco2 = 400], [tvoc = 100]. *)
Lemma air_read_alg_result_big_endian_witness :
  unpack_alg_result [0x01; 0x90; 0x00; 0x64] = {| eco2 := 400; tvoc := 100 |} /\
  fst (air_read_alg_result
         (mk_world (sensor_with 0x98 0x10 0 [0x01; 0x90; 0x00; 0x64]) []))
  = Ret {| eco2 := 400; tvoc := 100 |}.
Proof.
  apply (air_read_alg_result_big_endian
           (sensor_with 0x98 0x10 0 [0x01; 0x90; 0x00; 0x64])
           (mk_sensor AIR_ALG_RESULT_DATA_REG 0x98 0x10 0 [0x01; 0x90; 0x00; 0x64])
           (mk_sensor AIR_ALG_RESULT_DATA_REG 0x98 0x10 0 [0x01; 0x90; 0x00; 0x64])
           [] 0x01 0x90 0x00 0x64).
  - unfold is_char. lia.
  - unfold is_char. lia.
  - unfold is_char. lia.
  - unfold is_char. lia.
  - reflexivity.
  - reflexivity.
Defined.

(** ** Error id *)

(** C6.  The [switch] of [air_die] chooses, for every raw error id, the
    message of the fault that the specification's decode assigns to it:
    0 to 5 are [BadWrite], [BadRead], [BadMode], [MaxResistance],
    [HeaterFault], [HeaterSupply] in this order, every other value is
    [Unknown raw]; two raw values get the same message exactly when their
    faults are of the same kind.  In particular [0x03] is
    [MaxResistance] and [0xFF] is [Unknown 0xFF]. *)
Theorem air_die_switch_decodes_error_id :
  (forall raw,
     str_air_error_id raw = ErrorId_message (decode_error_id_spec raw) /\
     decode_error_id_spec raw
     = if (0 <=? raw) && (raw <=? 5)
       then nth (Z.to_nat raw)
              [BadWrite; BadRead; BadMode; MaxResistance; HeaterFault;
               HeaterSupply] BadWrite
       else Unknown raw) /\
  (forall raw raw',
     str_air_error_id raw = str_air_error_id raw' <->
     same_kind (decode_error_id_spec raw) (decode_error_id_spec raw') = true) /\
  decode_error_id_spec AIR_ERROR_ID_BAD_WRITE = BadWrite /\
  decode_error_id_spec AIR_ERROR_ID_BAD_READ = BadRead /\
  decode_error_id_spec AIR_ERROR_ID_BAD_MODE = BadMode /\
  decode_error_id_spec AIR_ERROR_ID_MAX_RESISTANCE = MaxResistance /\
  decode_error_id_spec AIR_ERROR_ID_HEATER_FAULT = HeaterFault /\
  decode_error_id_spec AIR_ERROR_ID_HEATER_SUPPLY = HeaterSupply /\
  decode_error_id_spec 0x03 = MaxResistance /\
  str_air_error_id 0x03 = "the resistance is set too high" /\
  decode_error_id_spec 0xFF = Unknown 0xFF /\
  str_air_error_id 0xFF = "unknown error!".
Proof.
  split; [|split; [|repeat split]].
  - intros raw. split; [apply str_air_error_id_spec|].
    destruct raw as [|p|p]; try reflexivity.
    do 3 (destruct p as [p|p|]; try reflexivity).
  - intros raw raw'. rewrite !str_air_error_id_spec.
    apply ErrorId_message_kind.
Qed.

(** ** Boot *)




(** C5, as stated, fails: with the status byte [0x90] (firmware in
    application mode) [air_boot] returns, but it has made one bus write,
    the one that selects the status register. *)
Lemma air_boot_booted_one_bus_write :
  fw_mode (unpack_air_status 0x90) = AIR_STATUS_FW_MODE_APP /\
  fst (air_boot (mk_world (sensor_with 0x90 0 0 []) [])) = Ret tt /\
  log (snd (air_boot (mk_world (sensor_with 0x90 0 0 []) [])))
  = [EStatus (unpack_air_status 0x90);
     ERead AIR_ADDR 1 [0x90] 0;
     EWrite AIR_ADDR [AIR_STATUS_REG] 0] /\
  bus_writes (log (snd (air_boot (mk_world (sensor_with 0x90 0 0 []) []))))
  = 1%nat /\
  bus_writes (log (snd (air_boot (mk_world (sensor_with 0x90 0 0 []) []))))
  <> 0%nat.
Proof.
  repeat split; try reflexivity.
  vm_compute. discriminate.
Qed.

(** C5, amended.  When the status read at its start reports the firmware
    in application mode, [air_boot] returns normally, and the status read
    (one register-select write and one read) is all its bus traffic: no
    bus write follows it, and nothing is written to the boot register. *)
Theorem air_boot_already_booted {D : Type} `{I2C D}
    (d d1 d2 : D) (l : list event) (b : Z) :
  is_char b ->
  i2c_write d AIR_ADDR [AIR_STATUS_REG] = (0, d1) ->
  i2c_read d1 AIR_ADDR 1 = (0, [b], d2) ->
  fw_mode (unpack_air_status b) = AIR_STATUS_FW_MODE_APP ->
  air_boot (mk_world d l)
  = (Ret tt,
     mk_world d2
       (EStatus (unpack_air_status b)
        :: ERead AIR_ADDR 1 [b] 0
        :: EWrite AIR_ADDR [AIR_STATUS_REG] 0 :: l)) /\
  bus_writes (log (snd (air_boot (mk_world d l)))) = S (bus_writes l) /\
  boot_writes (log (snd (air_boot (mk_world d l)))) = boot_writes l.
Proof.
  intros Hb Hw Hr Hfw.
  assert (Hrun : air_boot (mk_world d l)
    = (Ret tt,
       mk_world d2
         (EStatus (unpack_air_status b)
          :: ERead AIR_ADDR 1 [b] 0
          :: EWrite AIR_ADDR [AIR_STATUS_REG] 0 :: l))).
  { unfold air_boot.
    rewrite (bind_ret _ _ _ _ _ (air_read_status_run d d1 d2 l b Hb Hw Hr)).
    rewrite Hfw. reflexivity. }
  rewrite Hrun. repeat split.
Qed.

Lemma air_boot_already_booted_witness :
  air_boot (mk_world (sensor_with 0x90 0 0 []) [])
  = (Ret tt,
     mk_world (sensor_with 0x90 0 0 [])
       [EStatus (unpack_air_status 0x90);
        ERead AIR_ADDR 1 [0x90] 0;
        EWrite AIR_ADDR [AIR_STATUS_REG] 0]) /\
  bus_writes (log (snd (air_boot (mk_world (sensor_with 0x90 0 0 []) []))))
  = 1%nat /\
  boot_writes (log (snd (air_boot (mk_world (sensor_with 0x90 0 0 []) []))))
  = 0%nat.
Proof.
  apply (air_boot_already_booted
           (sensor_with 0x90 0 0 []) (sensor_with 0x90 0 0 [])
           (sensor_with 0x90 0 0 []) [] 0x90).
  - unfold is_char. lia.
  - reflexivity.
  - reflexivity.
  - reflexivity.
Defined.

(** ** Fault check *)

(** C7.  [air_die] reads the status register.  If the decoded status has
    no error, it returns and the status read is all that happened.  If it
    has an error, [air_die] reads the error id register, prints
    "air: error: %s" with the fixed message of the fault that this error
    id stands for (0 to 5 the six enumerated faults, any other value the
    unknown one), and exits with code 1. *)
Theorem air_die_check_for_fault {D : Type} `{I2C D}
    (d d1 d2 : D) (l : list event) (b : Z) :
  is_char b ->
  i2c_write d AIR_ADDR [AIR_STATUS_REG] = (0, d1) ->
  i2c_read d1 AIR_ADDR 1 = (0, [b], d2) ->
  (error (unpack_air_status b) = 0 ->
   air_die (mk_world d l)
   = (Ret tt,
      mk_world d2
        (EStatus (unpack_air_status b)
         :: ERead AIR_ADDR 1 [b] 0
         :: EWrite AIR_ADDR [AIR_STATUS_REG] 0 :: l))) /\
  (error (unpack_air_status b) <> 0 ->
   forall (d3 d4 : D) (e : Z),
     is_char e ->
     i2c_write d2 AIR_ADDR [AIR_ERROR_ID_REG] = (0, d3) ->
     i2c_read d3 AIR_ADDR 1 = (0, [e], d4) ->
     air_die (mk_world d l)
     = (Exited 1,
        mk_world d4
          (EPrintf "\r\n" []
           :: EPrintf "air: error: %s\r\n"
                [ArgStr (ErrorId_message (decode_error_id_spec e))]
           :: ERead AIR_ADDR 1 [e] 0
           :: EWrite AIR_ADDR [AIR_ERROR_ID_REG] 0
           :: EStatus (unpack_air_status b)
           :: ERead AIR_ADDR 1 [b] 0
           :: EWrite AIR_ADDR [AIR_STATUS_REG] 0 :: l))).
Proof.
  intros Hb Hw Hr. split.
  - intros Herr. unfold air_die.
    rewrite (bind_ret _ _ _ _ _ (air_read_status_run d d1 d2 l b Hb Hw Hr)).
    rewrite Herr. reflexivity.
  - intros Herr d3 d4 e He Hw' Hr'. unfold air_die.
    rewrite (bind_ret _ _ _ _ _ (air_read_status_run d d1 d2 l b Hb Hw Hr)).
    unfold c_true.
    destruct (Z.eqb_spec (error (unpack_air_status b)) 0) as [E|_];
      [contradiction|].
    cbn [negb when].
    rewrite (bind_ret _ _ _ _ _ (air_read_error_id_run d2 d3 d4 _ e He Hw' Hr')).
    rewrite <- str_air_error_id_spec. reflexivity.
Qed.

(** Without a fault (status [0x98]) the check returns; with the error bit
    set (status [0x99]) it exits with the heater current message for
    error id [0x04] and with the unknown error message for [0xFF]. *)
Lemma air_die_check_for_fault_witness :
  air_die (mk_world (sensor_with 0x98 0 0 []) [])
  = (Ret tt,
     mk_world (sensor_with 0x98 0 0 [])
       [EStatus (unpack_air_status 0x98);
        ERead AIR_ADDR 1 [0x98] 0;
        EWrite AIR_ADDR [AIR_STATUS_REG] 0]) /\
  air_die (mk_world (sensor_with 0x99 0 0x04 []) [])
  = (Exited 1,
     mk_world (mk_sensor AIR_ERROR_ID_REG 0x99 0 0x04 [])
       [EPrintf "\r\n" [];
        EPrintf "air: error: %s\r\n"
          [ArgStr "the heater's current was not in range"];
        ERead AIR_ADDR 1 [0x04] 0;
        EWrite AIR_ADDR [AIR_ERROR_ID_REG] 0;
        EStatus (unpack_air_status 0x99);
        ERead AIR_ADDR 1 [0x99] 0;
        EWrite AIR_ADDR [AIR_STATUS_REG] 0]) /\
  air_die (mk_world (sensor_with 0x99 0 0xFF []) [])
  = (Exited 1,
     mk_world (mk_sensor AIR_ERROR_ID_REG 0x99 0 0xFF [])
       [EPrintf "\r\n" [];
        EPrintf "air: error: %s\r\n" [ArgStr "unknown error!"];
        ERead AIR_ADDR 1 [0xFF] 0;
        EWrite AIR_ADDR [AIR_ERROR_ID_REG] 0;
        EStatus (unpack_air_status 0x99);
        ERead AIR_ADDR 1 [0x99] 0;
        EWrite AIR_ADDR [AIR_STATUS_REG] 0]).
Proof.
  split; [|split].
  - refine (proj1 (air_die_check_for_fault
                     (sensor_with 0x98 0 0 []) (sensor_with 0x98 0 0 [])
                     (sensor_with 0x98 0 0 []) [] 0x98 _ _ _) _).
    + unfold is_char. lia.
    + reflexivity.
    + reflexivity.
    + reflexivity.
  - refine (proj2 (air_die_check_for_fault
                     (sensor_with 0x99 0 0x04 []) (sensor_with 0x99 0 0x04 [])
                     (sensor_with 0x99 0 0x04 []) [] 0x99 _ _ _) _
                  (mk_sensor AIR_ERROR_ID_REG 0x99 0 0x04 [])
                  (mk_sensor AIR_ERROR_ID_REG 0x99 0 0x04 []) 0x04 _ _ _).
    + unfold is_char. lia.
    + reflexivity.
    + reflexivity.
    + vm_compute. discriminate.
    + unfold is_char. lia.
    + reflexivity.
    + reflexivity.
  - refine (proj2 (air_die_check_for_fault
                     (sensor_with 0x99 0 0xFF []) (sensor_with 0x99 0 0xFF [])
                     (sensor_with 0x99 0 0xFF []) [] 0x99 _ _ _) _
                  (mk_sensor AIR_ERROR_ID_REG 0x99 0 0xFF [])
                  (mk_sensor AIR_ERROR_ID_REG 0x99 0 0xFF []) 0xFF _ _ _).
    + unfold is_char. lia.
    + reflexivity.
    + reflexivity.
    + vm_compute. discriminate.
    + unfold is_char. lia.
    + reflexivity.
    + reflexivity.
Defined.

(** ** The boot command is guarded *)

(** C8.  In every run of [main], on any bus and for any number of rounds
    of its loops, each write to the boot register [0xF4] comes when the
    status decoded last has a valid application and a firmware mode other
    than application. *)
Theorem main_boot_write_guarded {D : Type} `{I2C D} (d : D) (fuel : nat) :
  boot_guarded (log (snd (main fuel (mk_world d [])))) = true.
Proof. apply keeps_main. reflexivity. Qed.

(** The guard is not vacuous: on a sensor in boot mode with a valid
    application, [main] does write the boot register, once. *)
Example main_boots_simulated_sensor :
  boot_writes (log (snd (main 2 (mk_world (sensor_with 0x10 0 0 [0; 0; 0; 0]) []))))
  = 1%nat.
Proof. vm_compute. reflexivity. Qed.

(** A sensor already in application mode with data ready (status [0x88])
    and result bytes [0x02 0x58 0x00 0x0A]: [main] reports [tvoc = 10] and
    never writes the boot register. *)
Example main_reports_tvoc :
  let w := snd (main 2 (mk_world (sensor_with 0x88 0 0 [0x02; 0x58; 0x00; 0x0A]) [])) in
  In (EPrintf "air: tvoc=%d\r\n" [ArgInt 10]) (log w) /\
  boot_writes (log w) = 0%nat.
Proof.
  vm_compute. split; [|reflexivity].
  repeat (try (left; reflexivity); right).
Qed.

(** On a bus that acknowledges nothing, [air_boot] exits at the first
    transaction. *)
Example air_boot_dead_bus :
  air_boot (mk_world tt [])
  = (Exited 1,
     mk_world tt
       [EPrintf "\r\n" [];
        EPrintf "air: read_status: failed to select status register" [];
        EWrite AIR_ADDR [AIR_STATUS_REG] 1]).
Proof. reflexivity. Qed.

(** ** Mode write *)

(** C9.  For every mode byte [b] read back and every drive mode [d], the
    byte that [air_write_mode] sends to the mode register is exactly
    [d << 4]: the bits of [b] are all dropped, because
    [!AIR_MODE_DRIVE_MODE_MASK] is 0. *)
Theorem air_write_mode_writes_shifted_drive_mode {D : Type} `{I2C D}
    (d d1 d2 : D) (l : list event) (b drive_mode : Z) :
  is_char b ->
  is_drive_mode drive_mode ->
  i2c_write d AIR_ADDR [AIR_MODE_REG] = (0, d1) ->
  i2c_read d1 AIR_ADDR 1 = (0, [b], d2) ->
  c_not AIR_MODE_DRIVE_MODE_MASK = 0 /\
  write_measurement_mode b drive_mode = Z.shiftl drive_mode 4 /\
  air_write_mode drive_mode (mk_world d l)
  = let buf := [AIR_MODE_REG; Z.shiftl drive_mode 4] in
    let '(rc, d3) := i2c_write d2 AIR_ADDR buf in
    let l' := EWrite AIR_ADDR buf rc
              :: ERead AIR_ADDR 1 [b] 0
              :: EWrite AIR_ADDR [AIR_MODE_REG] 0 :: l in
    if rc =? 0 then (Ret tt, mk_world d3 l')
    else (Exited 1,
          mk_world d3
            (EPrintf "\r\n" []
             :: EPrintf "air: write_mode: failed to write mode %d"
                  [ArgInt drive_mode]
             :: l')).
Proof.
  intros Hb Hd Hw Hr.
  assert (Hbyte : write_measurement_mode b drive_mode = Z.shiftl drive_mode 4).
  { rewrite write_measurement_mode_eq.
    apply to_char_small, drive_mode_shifted, Hd. }
  split; [reflexivity|]. split; [exact Hbyte|].
  unfold air_write_mode.
  run_bus Hw Hr.
  rewrite (to_char_small b Hb), Hbyte.
  destruct (i2c_write d2 AIR_ADDR [AIR_MODE_REG; Z.shiftl drive_mode 4])
    as [rc d3].
  destruct (rc =? 0); reflexivity.
Qed.

(** On the simulated sensor whose mode register holds [0xFF], writing the
    1-second drive mode stores [0x10]. *)
Lemma air_write_mode_writes_shifted_drive_mode_witness :
  c_not AIR_MODE_DRIVE_MODE_MASK = 0 /\
  write_measurement_mode 0xFF AIR_MODE_1_SECOND = 0x10 /\
  air_write_mode AIR_MODE_1_SECOND (mk_world (sensor_with 0x90 0xFF 0 []) [])
  = (Ret tt,
     mk_world (mk_sensor AIR_MODE_REG 0x90 0x10 0 [])
       [EWrite AIR_ADDR [AIR_MODE_REG; 0x10] 0;
        ERead AIR_ADDR 1 [0xFF] 0;
        EWrite AIR_ADDR [AIR_MODE_REG] 0]).
Proof.
  refine (air_write_mode_writes_shifted_drive_mode
            (sensor_with 0x90 0xFF 0 []) (mk_sensor AIR_MODE_REG 0x90 0xFF 0 [])
            (mk_sensor AIR_MODE_REG 0x90 0xFF 0 []) [] 0xFF AIR_MODE_1_SECOND
            _ _ _ _).
  - unfold is_char. lia.
  - unfold is_drive_mode, AIR_MODE_1_SECOND. lia.
  - reflexivity.
  - reflexivity.
Defined.

(** C1.  The mode write does not keep the bits outside positions 4-6.
    With the mode register at [0x08] and drive mode 1, [air_write_mode]
    writes [0x10]: outside bits 4-6 the written byte is 0 where the byte
    read was [0x08].  The codec as the specification words it would have
    written [0x18]. *)
Theorem air_write_mode_drops_other_bits :
  write_measurement_mode 0x08 AIR_MODE_1_SECOND = 0x10 /\
  Z.land (write_measurement_mode 0x08 AIR_MODE_1_SECOND) (Z.lnot 0x70) = 0 /\
  Z.land 0x08 (Z.lnot 0x70) = 0x08 /\
  Z.land (write_measurement_mode 0x08 AIR_MODE_1_SECOND) (Z.lnot 0x70)
  <> Z.land 0x08 (Z.lnot 0x70) /\
  encode_mode_write_spec 0x08 AIR_MODE_1_SECOND = 0x18 /\
  air_write_mode AIR_MODE_1_SECOND (mk_world (sensor_with 0x90 0x08 0 []) [])
  = (Ret tt,
     mk_world (mk_sensor AIR_MODE_REG 0x90 0x10 0 [])
       [EWrite AIR_ADDR [AIR_MODE_REG; 0x10] 0;
        ERead AIR_ADDR 1 [0x08] 0;
        EWrite AIR_ADDR [AIR_MODE_REG] 0]).
Proof.
  repeat split; try reflexivity.
  vm_compute. discriminate.
Qed.

(** * Further properties of the driver *)

(** Opens a driver function into the tree of its bus answers. *)
Ltac open_driver :=
  unfold air_boot, air_die, air_read_mode, air_write_mode, air_read_alg_result;
  unfold air_read_status, air_read_error_id;
  unfold die, printf, wait, when, bind, write, read, emit, exit, ret;
  cbn [bus log fst snd negb];
  repeat (match goal with
          | |- context [i2c_write ?d ?a ?p] =>
              let rc := fresh "rc" in let d' := fresh "d" in
              destruct (i2c_write d a p) as [rc d']
          | |- context [i2c_read ?d ?a ?n] =>
              let rc := fresh "rc" in let buf := fresh "buf" in
              let d' := fresh "d" in
              destruct (i2c_read d a n) as [[rc buf] d']
          | |- context [?rc =? 0] =>
              is_var rc; destruct (Z.eqb_spec rc 0); [subst rc|]
          | |- context [c_true ?x] =>
              let E := fresh "E" in destruct (c_true x) eqn:E
          | |- context [fw_mode ?st =? AIR_STATUS_FW_MODE_APP] =>
              let E := fresh "E" in
              destruct (fw_mode st =? AIR_STATUS_FW_MODE_APP) eqn:E
          end;
          cbn [bus log fst snd negb]).

(** ** Invariants of the log, step by step *)

Section LogInvariant.

Context {D : Type} `{I2C D}.
Variable check : event -> list event -> bool.

Lemma keeps_log_ret {A : Type} (a : A) : keeps_log D check (ret a).
Proof. intros w Hw. exact Hw. Qed.

Lemma keeps_log_out_of_fuel {A : Type} : keeps_log D check (@out_of_fuel D A).
Proof. intros w Hw. exact Hw. Qed.

Lemma keeps_log_bind {A B : Type} (m : M D A) (k : A -> M D B) :
  keeps_log D check m -> (forall a, keeps_log D check (k a)) ->
  keeps_log D check (bind m k).
Proof.
  intros Hm Hk w Hw. unfold bind.
  specialize (Hm w Hw).
  destruct (m w) as [[a|code|] w']; cbn [snd] in *; auto.
  apply Hk, Hm.
Qed.

Lemma keeps_log_emit (e : event) :
  (forall l, check e l = true) -> keeps_log D check (emit e).
Proof.
  intros He w Hw. unfold emit. cbn [snd log log_ok].
  rewrite He. exact Hw.
Qed.

(** What is left to show of [main] once its bus functions keep the
    invariant and the other events pass the check. *)
Hypothesis check_quiet : forall e l, is_bus e = false -> check e l = true.
Hypothesis log_status : keeps_log D check air_read_status.
Hypothesis log_die : keeps_log D check air_die.

Lemma keeps_log_printf fmt args : keeps_log D check (printf fmt args).
Proof. apply keeps_log_emit. intros l. apply check_quiet. reflexivity. Qed.

Lemma keeps_log_wait : keeps_log D check wait.
Proof. apply keeps_log_emit. intros l. apply check_quiet. reflexivity. Qed.

Lemma keeps_log_poll fuel : keeps_log D check (poll fuel).
Proof.
  induction fuel as [|fuel IH]; cbn [poll]; [apply keeps_log_out_of_fuel|].
  apply keeps_log_bind; [apply keeps_log_printf|intros _].
  apply keeps_log_bind; [apply log_status|intros st].
  apply keeps_log_bind; [apply log_die|intros _].
  apply keeps_log_bind; [apply keeps_log_wait|intros _].
  destruct (c_true (c_not (data_ready st))); [exact IH|apply keeps_log_ret].
Qed.

Hypothesis log_result : keeps_log D check air_read_alg_result.

Lemma keeps_log_main_loop fuel : keeps_log D check (main_loop fuel).
Proof.
  induction fuel as [|fuel IH]; cbn [main_loop]; [apply keeps_log_out_of_fuel|].
  apply keeps_log_bind; [apply log_status|intros _].
  apply keeps_log_bind; [apply keeps_log_poll|intros _].
  apply keeps_log_bind; [apply keeps_log_printf|intros _].
  apply keeps_log_bind; [apply log_result|intros r].
  apply keeps_log_bind; [apply keeps_log_printf|intros _].
  exact IH.
Qed.

Hypothesis log_boot : keeps_log D check air_boot.
Hypothesis log_mode : keeps_log D check (air_write_mode AIR_MODE_1_SECOND).

Lemma keeps_log_main fuel : keeps_log D check (main fuel).
Proof.
  unfold main.
  repeat (apply keeps_log_bind; [|intros _]);
    auto using keeps_log_printf, keeps_log_main_loop.
Qed.

End LogInvariant.

Section Protocol.

Context {D : Type} `{I2C D}.

Lemma on_protocol_main (fuel : nat) : keeps_log D on_protocol (main fuel).
Proof.
  apply keeps_log_main.
  - intros [] l He; try reflexivity; discriminate He.
  - intros [d l] Hl. open_driver; exact Hl.
  - intros [d l] Hl. open_driver; exact Hl.
  - intros [d l] Hl. open_driver; exact Hl.
  - intros [d l] Hl. open_driver; exact Hl.
  - intros [d l] Hl. open_driver;
      rewrite ?write_measurement_mode_eq; exact Hl.
Qed.

Lemma read_follows_select_main (fuel : nat) :
  keeps_log D read_follows_select (main fuel).
Proof.
  apply keeps_log_main.
  - intros [] l He; try reflexivity; discriminate He.
  - intros [d l] Hl. open_driver; exact Hl.
  - intros [d l] Hl. open_driver; exact Hl.
  - intros [d l] Hl. open_driver; exact Hl.
  - intros [d l] Hl. open_driver; exact Hl.
  - intros [d l] Hl. open_driver; exact Hl.
Qed.

End Protocol.

(** ** The result is read after data ready *)

Section ResultGuard.

Context {D : Type} `{I2C D}.

Lemma air_read_status_statuses (w w' : world D) (st : air_status_t) :
  air_read_status w = (Ret st, w') ->
  statuses (log w') = st :: statuses (log w).
Proof.
  destruct w as [d l]. open_driver; intros E; inversion E; reflexivity.
Qed.

(** [air_die] returns only after decoding a status without error. *)
Lemma air_die_statuses (w w' : world D) :
  air_die w = (Ret tt, w') ->
  exists st, statuses (log w') = st :: statuses (log w) /\
             c_true (error st) = false.
Proof.
  destruct w as [d l]. open_driver; intros Eq; inversion Eq; subst.
  eexists. split; [reflexivity|assumption].
Qed.

(** [poll] returns a status with data ready, decoded just before the
    status that the fault check found free of error. *)
Lemma poll_statuses (fuel : nat) (w w' : world D) (st : air_status_t) :
  poll fuel w = (Ret st, w') ->
  exists st2 rest,
    statuses (log w') = st2 :: st :: rest /\
    c_true (error st2) = false /\
    c_true (data_ready st) = true.
Proof.
  revert w. induction fuel as [|fuel IH]; intros w; cbn [poll].
  - discriminate.
  - unfold bind at 1, printf at 1, emit at 1.
    unfold bind at 1.
    destruct (air_read_status _) as [[st1|code|] w1] eqn:Est; try discriminate.
    apply air_read_status_statuses in Est.
    unfold bind at 1.
    destruct (air_die w1) as [[[]|code|] w2] eqn:Edie; try discriminate.
    apply air_die_statuses in Edie. destruct Edie as (st2 & Hs2 & He2).
    unfold bind at 1, wait at 1, emit at 1.
    rewrite c_true_c_not.
    destruct (c_true (data_ready st1)) eqn:Eready; cbn [negb].
    + intros Eq. inversion Eq; subst. cbn [log statuses].
      exists st2, (statuses (log w)).
      rewrite Hs2, Est. cbn [log statuses].
      repeat split; assumption.
    + apply IH.
Qed.

Lemma result_guard_quiet (e : event) (l : list event) :
  is_bus e = false -> result_after_data_ready e l = true.
Proof. destruct e; try reflexivity; discriminate. Qed.

Lemma result_guard_status : keeps_log D result_after_data_ready air_read_status.
Proof. intros [d l] Hl. open_driver; exact Hl. Qed.

Lemma result_guard_die : keeps_log D result_after_data_ready air_die.
Proof. intros [d l] Hl. open_driver; exact Hl. Qed.

Lemma result_guard_boot : keeps_log D result_after_data_ready air_boot.
Proof. intros [d l] Hl. open_driver; exact Hl. Qed.

Lemma result_guard_mode drive_mode :
  keeps_log D result_after_data_ready (air_write_mode drive_mode).
Proof. intros [d l] Hl. open_driver; exact Hl. Qed.

(** Reading the result keeps the invariant when the last two statuses
    allow it. *)
Lemma result_guard_result (w : world D) (st2 st : air_status_t) rest :
  statuses (log w) = st2 :: st :: rest ->
  c_true (error st2) = false ->
  c_true (data_ready st) = true ->
  log_ok result_after_data_ready (log w) = true ->
  log_ok result_after_data_ready (log (snd (air_read_alg_result w))) = true.
Proof.
  destruct w as [d l]. cbn [log]. intros Hs He Hr Hl.
  assert (Hsel : forall rc,
    result_after_data_ready
      (EWrite AIR_ADDR [AIR_ALG_RESULT_DATA_REG] rc) l = true).
  { intros rc. unfold result_after_data_ready.
    cbn [is_result_select]. rewrite Z.eqb_refl, Hs, He, Hr. reflexivity. }
  open_driver; cbn [log_ok]; rewrite Hsel, Hl; reflexivity.
Qed.

Lemma result_guard_main_loop (fuel : nat) :
  keeps_log D result_after_data_ready (main_loop fuel).
Proof.
  induction fuel as [|fuel IH]; cbn [main_loop]; [apply keeps_log_out_of_fuel|].
  apply keeps_log_bind; [apply result_guard_status|intros _].
  intros w Hw. unfold bind at 1.
  pose proof (keeps_log_poll _ result_guard_quiet result_guard_status
                result_guard_die fuel w Hw) as Hp.
  destruct (poll fuel w) as [[st|code|] w1] eqn:Ep; cbn [snd] in *;
    try exact Hp.
  apply poll_statuses in Ep. destruct Ep as (st2 & rest & Hs & He & Hr).
  unfold bind at 1, printf at 1, emit at 1.
  unfold bind at 1.
  match goal with
  | |- context [air_read_alg_result ?w0] =>
      pose proof (result_guard_result w0 st2 st rest Hs He Hr) as Hres;
      destruct (air_read_alg_result w0) as [[r|code|] w2]
  end; cbn [snd log log_ok] in *;
    try (apply Hres; rewrite Hp; reflexivity).
  apply keeps_log_bind;
    [apply keeps_log_printf, result_guard_quiet
    |intros _; exact IH
    |apply Hres; rewrite Hp; reflexivity].
Qed.

Lemma result_guard_main (fuel : nat) :
  keeps_log D result_after_data_ready (main fuel).
Proof.
  pose proof (keeps_log_printf (D:=D) _ result_guard_quiet) as Hprint.
  unfold main.
  repeat (apply keeps_log_bind; [|intros _]);
    auto using result_guard_boot, result_guard_die, result_guard_mode,
      result_guard_main_loop.
Qed.

End ResultGuard.

(** ** How a run ends *)

Section RunOk.

Context {D : Type} `{I2C D}.
Variables inv fin : list event -> bool.

Hypothesis inv_quiet :
  forall e l, is_bus e = false -> inv l = true -> inv (e :: l) = true.

Lemma run_ok_ret {A : Type} (a : A) : run_ok D inv fin (ret a).
Proof. intros w Hw. exact Hw. Qed.

Lemma run_ok_out_of_fuel {A : Type} : run_ok D inv fin (@out_of_fuel D A).
Proof. intros w Hw. exact Hw. Qed.

Lemma run_ok_bind {A B : Type} (m : M D A) (k : A -> M D B) :
  run_ok D inv fin m -> (forall a, run_ok D inv fin (k a)) ->
  run_ok D inv fin (bind m k).
Proof.
  intros Hm Hk w Hw. unfold bind.
  specialize (Hm w Hw).
  destruct (m w) as [[a|code|] w']; cbn [fst snd] in *.
  - apply Hk, Hm.
  - exact Hm.
  - exact Hm.
Qed.

Lemma run_ok_emit (e : event) : is_bus e = false -> run_ok D inv fin (emit e).
Proof. intros He w Hw. apply inv_quiet; assumption. Qed.

Hypothesis ok_status : run_ok D inv fin air_read_status.
Hypothesis ok_die : run_ok D inv fin air_die.
Hypothesis ok_result : run_ok D inv fin air_read_alg_result.
Hypothesis ok_boot : run_ok D inv fin air_boot.
Hypothesis ok_mode : run_ok D inv fin (air_write_mode AIR_MODE_1_SECOND).

Lemma run_ok_printf fmt args : run_ok D inv fin (printf fmt args).
Proof. apply run_ok_emit. reflexivity. Qed.

Lemma run_ok_poll fuel : run_ok D inv fin (poll fuel).
Proof.
  induction fuel as [|fuel IH]; cbn [poll]; [apply run_ok_out_of_fuel|].
  apply run_ok_bind; [apply run_ok_printf|intros _].
  apply run_ok_bind; [apply ok_status|intros st].
  apply run_ok_bind; [apply ok_die|intros _].
  apply run_ok_bind; [apply run_ok_emit; reflexivity|intros _].
  destruct (c_true (c_not (data_ready st))); [exact IH|apply run_ok_ret].
Qed.

Lemma run_ok_main_loop fuel : run_ok D inv fin (main_loop fuel).
Proof.
  induction fuel as [|fuel IH]; cbn [main_loop]; [apply run_ok_out_of_fuel|].
  apply run_ok_bind; [apply ok_status|intros _].
  apply run_ok_bind; [apply run_ok_poll|intros _].
  apply run_ok_bind; [apply run_ok_printf|intros _].
  apply run_ok_bind; [apply ok_result|intros r].
  apply run_ok_bind; [apply run_ok_printf|intros _].
  exact IH.
Qed.

Lemma run_ok_main fuel : run_ok D inv fin (main fuel).
Proof.
  unfold main.
  repeat (apply run_ok_bind; [|intros _]);
    auto using run_ok_printf, run_ok_main_loop.
Qed.

End RunOk.

(** Closes the goals that [open_driver] leaves of a [run_ok] statement. *)
Ltac close_run Hl :=
  first [exact Hl | split; [reflexivity|exact Hl]].

Section Endings.

Context {D : Type} `{I2C D}.

Lemma forallb_acked_all_but_newest (l : list event) :
  forallb acked l = true -> all_but_newest_acked l = true.
Proof.
  induction l as [|e l IH]; [reflexivity|].
  cbn [forallb all_but_newest_acked].
  intros Hl. apply andb_prop in Hl. destruct Hl as [_ Hl].
  destruct (is_bus e); auto.
Qed.

(** From an acknowledged log, [main] exits with code 1 right after a
    diagnostic line, all transactions but the newest acknowledged, or
    goes on with every transaction acknowledged. *)
Lemma main_fail_fast (fuel : nat) :
  run_ok D (forallb acked)
    (fun l => diag_last l && all_but_newest_acked l) (main fuel).
Proof.
  apply run_ok_main.
  - intros [] l He Hl; try discriminate He; exact Hl.
  - intros [d l] Hl. open_driver; close_run Hl.
  - intros [d l] Hl. open_driver; close_run Hl.
  - intros [d l] Hl. open_driver; close_run Hl.
  - intros [d l] Hl. open_driver; close_run Hl.
  - intros [d l] Hl. open_driver; close_run Hl.
Qed.

Lemma bind_not_returned {A B : Type} (m : M D A) (k : A -> M D B) :
  (forall a w, returned (fst (k a w)) = false) ->
  forall w, returned (fst (bind m k w)) = false.
Proof.
  intros Hk w. unfold bind.
  destruct (m w) as [[a|code|] w']; [apply Hk|reflexivity|reflexivity].
Qed.

Lemma main_loop_not_returned (fuel : nat) (w : world D) :
  returned (fst (main_loop fuel w)) = false.
Proof.
  revert w. induction fuel as [|fuel IH]; intros w; [reflexivity|].
  cbn [main_loop].
  repeat (apply bind_not_returned; intros ? ?).
  apply IH.
Qed.

Lemma main_not_returned (fuel : nat) (w : world D) :
  returned (fst (main fuel w)) = false.
Proof.
  unfold main.
  repeat (apply bind_not_returned; intros ? ?).
  apply main_loop_not_returned.
Qed.

End Endings.

(** ** Counting events *)

Section Counting.

Context {D : Type} `{I2C D}.
Variable p : event -> bool.

Lemma adds_weaken {A : Type} (m : M D A) (n n' : nat) :
  adds_at_most D p n m -> (n <= n')%nat -> adds_at_most D p n' m.
Proof. intros Hm Hn w. specialize (Hm w). lia. Qed.

Lemma adds_ret {A : Type} (a : A) : adds_at_most D p 0 (ret a).
Proof. intros w. cbn [snd ret]. lia. Qed.

Lemma adds_out_of_fuel {A : Type} : adds_at_most D p 0 (@out_of_fuel D A).
Proof. intros w. cbn [snd out_of_fuel]. lia. Qed.

Lemma adds_bind {A B : Type} (m : M D A) (k : A -> M D B) (n n' : nat) :
  adds_at_most D p n m -> (forall a, adds_at_most D p n' (k a)) ->
  adds_at_most D p (n + n') (bind m k).
Proof.
  intros Hm Hk w. unfold bind.
  specialize (Hm w).
  destruct (m w) as [[a|code|] w']; cbn [snd] in *; try lia.
  specialize (Hk a w'). lia.
Qed.

Lemma adds_emit (e : event) : p e = false -> adds_at_most D p 0 (emit e).
Proof.
  intros He w. unfold emit, count_events. cbn [snd log filter].
  rewrite He. lia.
Qed.

Hypothesis p_quiet : forall e, is_bus e = false -> p e = false.
Hypothesis none_status : adds_at_most D p 0 air_read_status.
Hypothesis none_die : adds_at_most D p 0 air_die.
Hypothesis none_result : adds_at_most D p 0 air_read_alg_result.

Lemma adds_printf fmt args : adds_at_most D p 0 (printf fmt args).
Proof. apply adds_emit, p_quiet. reflexivity. Qed.

Lemma adds_poll fuel : adds_at_most D p 0 (poll fuel).
Proof.
  induction fuel as [|fuel IH]; cbn [poll]; [apply adds_out_of_fuel|].
  apply (adds_bind _ _ 0 0); [apply adds_printf|intros _].
  apply (adds_bind _ _ 0 0); [apply none_status|intros st].
  apply (adds_bind _ _ 0 0); [apply none_die|intros _].
  apply (adds_bind _ _ 0 0); [apply adds_emit, p_quiet; reflexivity|intros _].
  destruct (c_true (c_not (data_ready st))); [exact IH|apply adds_ret].
Qed.

Lemma adds_main_loop fuel : adds_at_most D p 0 (main_loop fuel).
Proof.
  induction fuel as [|fuel IH]; cbn [main_loop]; [apply adds_out_of_fuel|].
  apply (adds_bind _ _ 0 0); [apply none_status|intros _].
  apply (adds_bind _ _ 0 0); [apply adds_poll|intros _].
  apply (adds_bind _ _ 0 0); [apply adds_printf|intros _].
  apply (adds_bind _ _ 0 0); [apply none_result|intros r].
  apply (adds_bind _ _ 0 0); [apply adds_printf|intros _].
  exact IH.
Qed.

Lemma adds_main (nb nm : nat) fuel :
  adds_at_most D p nb air_boot ->
  adds_at_most D p nm (air_write_mode AIR_MODE_1_SECOND) ->
  adds_at_most D p (nb + nm) (main fuel).
Proof.
  intros Hboot Hmode. unfold main.
  apply (adds_bind _ _ 0 (nb + nm)); [apply adds_printf|intros _].
  apply (adds_bind _ _ nb nm); [exact Hboot|intros _].
  apply (adds_bind _ _ 0 nm); [apply none_die|intros _].
  apply (adds_bind _ _ 0 nm); [apply adds_printf|intros _].
  apply (adds_bind _ _ 0 nm); [apply adds_printf|intros _].
  apply (adds_weaken _ (nm + 0)); [|lia].
  apply (adds_bind _ _ nm 0); [exact Hmode|intros _].
  apply (adds_bind _ _ 0 0); [apply none_die|intros _].
  apply (adds_bind _ _ 0 0); [apply adds_printf|intros _].
  apply adds_main_loop.
Qed.

End Counting.

(** Closes the goals that [open_driver] leaves of an [adds_at_most]
    statement. *)
Ltac close_count :=
  unfold count_events; cbn [filter is_boot_write is_mode_write List.length];
  repeat match goal with
         | |- context [?a =? ?b] =>
             let v := eval vm_compute in (a =? b) in
             change (a =? b) with v
         end;
  cbn [filter List.length]; lia.

Section Once.

Context {D : Type} `{I2C D}.

Lemma main_boots_at_most_once (fuel : nat) :
  adds_at_most D is_boot_write 1 (main fuel).
Proof.
  apply (adds_main is_boot_write) with (nb := 1%nat) (nm := 0%nat).
  - intros [] He; try reflexivity; discriminate He.
  - intros [d l]. open_driver; close_count.
  - intros [d l]. open_driver; close_count.
  - intros [d l]. open_driver; close_count.
  - intros [d l]. open_driver; close_count.
  - intros [d l]. open_driver; close_count.
Qed.

Lemma main_sets_mode_at_most_once (fuel : nat) :
  adds_at_most D is_mode_write 1 (main fuel).
Proof.
  apply (adds_main is_mode_write) with (nb := 0%nat) (nm := 1%nat).
  - intros [] He; try reflexivity; discriminate He.
  - intros [d l]. open_driver; close_count.
  - intros [d l]. open_driver; close_count.
  - intros [d l]. open_driver; close_count.
  - intros [d l]. open_driver; close_count.
  - intros [d l]. open_driver; close_count.
Qed.

End Once.

(** ** The report *)

Section Report.

Context {D : Type} `{I2C D}.

(** When [air_read_alg_result] returns, the newest event is its
    acknowledged read and the result is decoded from it. *)
Lemma air_read_alg_result_ret (w w' : world D) (r : air_alg_result_t) :
  air_read_alg_result w = (Ret r, w') ->
  exists buf l,
    log w' = ERead AIR_ADDR 4 buf 0 :: l /\
    r = unpack_alg_result (map to_char buf).
Proof.
  destruct w as [d l]. open_driver; intros Eq; inversion Eq; subst.
  eexists. eexists. split; reflexivity.
Qed.

Lemma report_status : keeps_log D reports_last_read air_read_status.
Proof. intros [d l] Hl. open_driver; exact Hl. Qed.

Lemma report_die : keeps_log D reports_last_read air_die.
Proof. intros [d l] Hl. open_driver; exact Hl. Qed.

Lemma report_boot : keeps_log D reports_last_read air_boot.
Proof. intros [d l] Hl. open_driver; exact Hl. Qed.

Lemma report_mode drive_mode :
  keeps_log D reports_last_read (air_write_mode drive_mode).
Proof. intros [d l] Hl. open_driver; exact Hl. Qed.

Lemma report_result : keeps_log D reports_last_read air_read_alg_result.
Proof. intros [d l] Hl. open_driver; exact Hl. Qed.

Lemma report_poll (fuel : nat) : keeps_log D reports_last_read (poll fuel).
Proof.
  induction fuel as [|fuel IH]; cbn [poll]; [apply keeps_log_out_of_fuel|].
  apply keeps_log_bind; [apply keeps_log_emit; reflexivity|intros _].
  apply keeps_log_bind; [apply report_status|intros st].
  apply keeps_log_bind; [apply report_die|intros _].
  apply keeps_log_bind; [apply keeps_log_emit; reflexivity|intros _].
  destruct (c_true (c_not (data_ready st))); [exact IH|apply keeps_log_ret].
Qed.

Lemma report_main_loop (fuel : nat) :
  keeps_log D reports_last_read (main_loop fuel).
Proof.
  induction fuel as [|fuel IH]; cbn [main_loop]; [apply keeps_log_out_of_fuel|].
  apply keeps_log_bind; [apply report_status|intros _].
  apply keeps_log_bind; [apply report_poll|intros _].
  apply keeps_log_bind; [apply keeps_log_emit; reflexivity|intros _].
  intros w Hw. unfold bind at 1.
  pose proof (report_result w Hw) as Hr.
  destruct (air_read_alg_result w) as [[r|code|] w1] eqn:Er; cbn [snd] in *;
    try exact Hr.
  apply air_read_alg_result_ret in Er. destruct Er as (buf & l & Hlog & ->).
  unfold bind at 1, printf at 1, emit at 1.
  apply IH. cbn [log log_ok]. rewrite Hr, andb_true_r.
  rewrite Hlog. cbn [reports_last_read String.eqb Ascii.eqb Bool.eqb].
  rewrite !Z.eqb_refl. reflexivity.
Qed.

Lemma report_main (fuel : nat) : keeps_log D reports_last_read (main fuel).
Proof.
  unfold main.
  repeat (apply keeps_log_bind; [|intros _]);
    auto using report_boot, report_die, report_mode, report_main_loop;
    apply keeps_log_emit; reflexivity.
Qed.

End Report.

(** ** Drive mode *)

Lemma unpack_drive_mode_eq (b : Z) : unpack_drive_mode b = (b / 16) mod 8.
Proof.
  unfold unpack_drive_mode.
  change AIR_MODE_DRIVE_MODE_MASK with (Z.shiftl (Z.ones 3) 4).
  rewrite Z.shiftr_land, Z.shiftr_shiftl_l, Z.sub_diag, Z.shiftl_0_r by lia.
  rewrite Z.land_ones, Z.shiftr_div_pow2 by lia.
  change (2 ^ 4) with 16. change (2 ^ 3) with 8.
  apply to_char_small. unfold is_char.
  pose proof (Z.mod_pos_bound (b / 16) 8). lia.
Qed.

(** X1.  [air_read_mode], on a bus that delivers the mode byte [b],
    returns bits 4-6 of [b] as a number from 0 to 7, and the register
    read is all its bus traffic. *)
Theorem air_read_mode_returns_field {D : Type} `{I2C D}
    (d d1 d2 : D) (l : list event) (b : Z) :
  is_char b ->
  i2c_write d AIR_ADDR [AIR_MODE_REG] = (0, d1) ->
  i2c_read d1 AIR_ADDR 1 = (0, [b], d2) ->
  air_read_mode (mk_world d l)
  = (Ret ((b / 16) mod 8),
     mk_world d2 (ERead AIR_ADDR 1 [b] 0
                  :: EWrite AIR_ADDR [AIR_MODE_REG] 0 :: l)) /\
  is_drive_mode ((b / 16) mod 8).
Proof.
  intros Hb Hw Hr. split.
  - unfold air_read_mode. run_bus Hw Hr.
    rewrite (to_char_small b Hb), unpack_drive_mode_eq. reflexivity.
  - unfold is_drive_mode. apply Z.mod_pos_bound. lia.
Qed.

Lemma air_read_mode_returns_field_witness :
  air_read_mode (mk_world (sensor_with 0x90 0x9C 0 []) [])
  = (Ret 1,
     mk_world (mk_sensor AIR_MODE_REG 0x90 0x9C 0 [])
       [ERead AIR_ADDR 1 [0x9C] 0; EWrite AIR_ADDR [AIR_MODE_REG] 0]) /\
  is_drive_mode 1.
Proof.
  refine (air_read_mode_returns_field
            (sensor_with 0x90 0x9C 0 []) (mk_sensor AIR_MODE_REG 0x90 0x9C 0 [])
            (mk_sensor AIR_MODE_REG 0x90 0x9C 0 []) [] 0x9C _ _ _).
  - unfold is_char. lia.
  - reflexivity.
  - reflexivity.
Defined.

(** X2.  The drive mode survives the round trip: the field that
    [air_read_mode] extracts from the byte that [air_write_mode] sends is
    the drive mode modulo 8, whatever mode byte was read back before the
    write; for the eight 3-bit drive modes it is the drive mode itself. *)
Theorem drive_mode_round_trip (b drive_mode : Z) :
  unpack_drive_mode (write_measurement_mode b drive_mode) = drive_mode mod 8.
Proof.
  rewrite write_measurement_mode_eq, unpack_drive_mode_eq.
  unfold to_char. rewrite Z.shiftl_mul_pow2 by lia.
  change (2 ^ 4) with 16.
  Z.div_mod_to_equations. lia.
Qed.

(** ** Failures of the bus *)

(** X3.  [air_read_status] decodes nothing when the bus fails: if the
    select write is not acknowledged it prints its diagnostic and exits
    with code 1 without reading; if the read is not acknowledged it
    prints the other diagnostic and exits with code 1. *)
Theorem air_read_status_bus_failure {D : Type} `{I2C D}
    (d d1 : D) (l : list event) (rc : Z) :
  i2c_write d AIR_ADDR [AIR_STATUS_REG] = (rc, d1) ->
  (rc <> 0 ->
   air_read_status (mk_world d l)
   = (Exited 1,
      mk_world d1
        (EPrintf "\r\n" []
         :: EPrintf "air: read_status: failed to select status register" []
         :: EWrite AIR_ADDR [AIR_STATUS_REG] rc :: l))) /\
  (rc = 0 ->
   forall (rc' : Z) (buf : list Z) (d2 : D),
     i2c_read d1 AIR_ADDR 1 = (rc', buf, d2) ->
     rc' <> 0 ->
     air_read_status (mk_world d l)
     = (Exited 1,
        mk_world d2
          (EPrintf "\r\n" []
           :: EPrintf "air: read_status: failed to read air status register" []
           :: ERead AIR_ADDR 1 buf rc'
           :: EWrite AIR_ADDR [AIR_STATUS_REG] 0 :: l))).
Proof.
  intros Hw. split.
  - intros Hrc. unfold air_read_status, bind, write, when, die, printf, emit,
      exit. cbn [bus log]. rewrite Hw.
    destruct (Z.eqb_spec rc 0); [contradiction|]. reflexivity.
  - intros -> rc' buf d2 Hr Hrc'.
    unfold air_read_status, bind, write, read, when, die, printf, emit, exit,
      ret. cbn [bus log]. rewrite Hw. cbn [bus log negb Z.eqb].
    rewrite Hr. cbn [fst].
    destruct (Z.eqb_spec rc' 0); [contradiction|]. reflexivity.
Qed.

Lemma air_read_status_bus_failure_witness :
  @air_read_status unit dead_bus (mk_world tt [])
  = (Exited 1,
     mk_world tt
       [EPrintf "\r\n" [];
        EPrintf "air: read_status: failed to select status register" [];
        EWrite AIR_ADDR [AIR_STATUS_REG] 1]) /\
  @air_read_status unit mute_bus (mk_world tt [])
  = (Exited 1,
     mk_world tt
       [EPrintf "\r\n" [];
        EPrintf "air: read_status: failed to read air status register" [];
        ERead AIR_ADDR 1 [] 1;
        EWrite AIR_ADDR [AIR_STATUS_REG] 0]).
Proof.
  split.
  - refine (proj1 (@air_read_status_bus_failure unit dead_bus tt tt [] 1 _) _).
    + reflexivity.
    + discriminate.
  - refine (proj2 (@air_read_status_bus_failure unit mute_bus tt tt [] 0 _) _
                  1 [] tt _ _).
    + reflexivity.
    + reflexivity.
    + reflexivity.
    + discriminate.
Defined.

(** X4.  On the boot path of [air_boot] - the status read reports a valid
    application and a firmware mode other than application - the one-byte
    command [0xF4] is written once; [air_boot] returns if the write is
    acknowledged and otherwise prints "air: boot: failed to boot" and
    exits with code 1. *)
Theorem air_boot_sends_command {D : Type} `{I2C D}
    (d d1 d2 : D) (l : list event) (b : Z) :
  is_char b ->
  i2c_write d AIR_ADDR [AIR_STATUS_REG] = (0, d1) ->
  i2c_read d1 AIR_ADDR 1 = (0, [b], d2) ->
  fw_mode (unpack_air_status b) <> AIR_STATUS_FW_MODE_APP ->
  app_valid (unpack_air_status b) <> 0 ->
  air_boot (mk_world d l)
  = let '(rc, d3) := i2c_write d2 AIR_ADDR [AIR_BOOT_APP_START_REG] in
    let l' := EWrite AIR_ADDR [AIR_BOOT_APP_START_REG] rc
              :: EStatus (unpack_air_status b)
              :: ERead AIR_ADDR 1 [b] 0
              :: EWrite AIR_ADDR [AIR_STATUS_REG] 0 :: l in
    if rc =? 0 then (Ret tt, mk_world d3 l')
    else (Exited 1,
          mk_world d3
            (EPrintf "\r\n" [] :: EPrintf "air: boot: failed to boot" [] :: l')).
Proof.
  intros Hb Hw Hr Hfw Happ. unfold air_boot.
  rewrite (bind_ret _ _ _ _ _ (air_read_status_run d d1 d2 l b Hb Hw Hr)).
  destruct (Z.eqb_spec (fw_mode (unpack_air_status b)) AIR_STATUS_FW_MODE_APP)
    as [E|_]; [contradiction|].
  rewrite c_true_c_not. unfold c_true.
  destruct (Z.eqb_spec (app_valid (unpack_air_status b)) 0) as [E|_];
    [contradiction|].
  unfold bind, when, write, die, printf, emit, exit, ret.
  cbn [negb bus log].
  destruct (i2c_write d2 AIR_ADDR [AIR_BOOT_APP_START_REG]) as [rc d3].
  destruct (rc =? 0); reflexivity.
Qed.

Lemma air_boot_sends_command_witness :
  air_boot (mk_world (sensor_with 0x10 0 0 []) [])
  = (Ret tt,
     mk_world (mk_sensor AIR_BOOT_APP_START_REG 0x90 0 0 [])
       [EWrite AIR_ADDR [AIR_BOOT_APP_START_REG] 0;
        EStatus (unpack_air_status 0x10);
        ERead AIR_ADDR 1 [0x10] 0;
        EWrite AIR_ADDR [AIR_STATUS_REG] 0]).
Proof.
  refine (air_boot_sends_command
            (sensor_with 0x10 0 0 []) (sensor_with 0x10 0 0 [])
            (sensor_with 0x10 0 0 []) [] 0x10 _ _ _ _ _).
  - unfold is_char. lia.
  - reflexivity.
  - reflexivity.
  - vm_compute. discriminate.
  - vm_compute. discriminate.
Defined.

(** X5.  Once the decoded status has the error bit set, [air_die] never
    returns: whatever the bus answers to the error id read, it exits with
    code 1, a diagnostic line printed last. *)
Theorem air_die_fault_is_fatal {D : Type} `{I2C D}
    (d d1 d2 : D) (l : list event) (b : Z) :
  is_char b ->
  i2c_write d AIR_ADDR [AIR_STATUS_REG] = (0, d1) ->
  i2c_read d1 AIR_ADDR 1 = (0, [b], d2) ->
  error (unpack_air_status b) <> 0 ->
  fst (air_die (mk_world d l)) = Exited 1 /\
  diag_last (log (snd (air_die (mk_world d l)))) = true.
Proof.
  intros Hb Hw Hr Herr. unfold air_die.
  rewrite (bind_ret _ _ _ _ _ (air_read_status_run d d1 d2 l b Hb Hw Hr)).
  unfold c_true.
  destruct (Z.eqb_spec (error (unpack_air_status b)) 0) as [E|_];
    [contradiction|].
  cbn [negb when]. open_driver; split; reflexivity.
Qed.

Lemma air_die_fault_is_fatal_witness :
  fst (air_die (mk_world (sensor_with 0x91 0 0x01 []) [])) = Exited 1 /\
  diag_last (log (snd (air_die (mk_world (sensor_with 0x91 0 0x01 []) []))))
  = true.
Proof.
  refine (air_die_fault_is_fatal
            (sensor_with 0x91 0 0x01 []) (sensor_with 0x91 0 0x01 [])
            (sensor_with 0x91 0 0x01 []) [] 0x91 _ _ _ _).
  - unfold is_char. lia.
  - reflexivity.
  - reflexivity.
  - vm_compute. discriminate.
Defined.

(** ** What every run of [main] keeps *)

(** X6.  [main] never returns: for every bus, every starting log and every
    bound on its loops it is either still running or has exited with code
    1, and then the last things printed are a diagnostic and the line
    end. *)
Theorem main_runs_or_dies {D : Type} `{I2C D} (fuel : nat) (w : world D) :
  (exists w', main fuel w = (Running, w')) \/
  (exists w', main fuel w = (Exited 1, w') /\ diag_last (log w') = true).
Proof.
  pose proof (main_not_returned fuel w) as Hret.
  assert (Hok : run_ok D (fun _ => true) diag_last (main fuel)).
  { apply run_ok_main.
    - reflexivity.
    - intros [d l] Hl. open_driver; close_run Hl.
    - intros [d l] Hl. open_driver; close_run Hl.
    - intros [d l] Hl. open_driver; close_run Hl.
    - intros [d l] Hl. open_driver; close_run Hl.
    - intros [d l] Hl. open_driver; close_run Hl. }
  specialize (Hok w eq_refl).
  destruct (main fuel w) as [[[]|code|] w']; cbn [fst snd returned] in *.
  - discriminate Hret.
  - right. exists w'. destruct Hok as [-> Hdiag]. split; [reflexivity|exact Hdiag].
  - left. exists w'. reflexivity.
Qed.

(** X7.  [main] is fail-fast: in every run a transaction that the bus did
    not acknowledge is the last transaction made, and [main] has then
    exited with code 1. *)
Theorem main_stops_at_first_failure {D : Type} `{I2C D} (fuel : nat) (d : D) :
  all_but_newest_acked (log (snd (main fuel (mk_world d [])))) = true /\
  (forallb acked (log (snd (main fuel (mk_world d [])))) = true \/
   exists w', main fuel (mk_world d []) = (Exited 1, w')).
Proof.
  pose proof (main_fail_fast fuel (mk_world d []) eq_refl) as Hok.
  destruct (main fuel (mk_world d [])) as [[[]|code|] w'];
    cbn [fst snd] in *.
  - split; [apply forallb_acked_all_but_newest, Hok|left; exact Hok].
  - destruct Hok as [-> Hfin]. apply andb_prop in Hfin.
    split; [apply Hfin|right; exists w'; reflexivity].
  - split; [apply forallb_acked_all_but_newest, Hok|left; exact Hok].
Qed.

(** X8.  In every run of [main] each transaction is addressed to the
    sensor ([0x5A << 1]); a write carries one of the five register
    addresses alone or the mode register address followed by [0x10], and
    a read asks for 1 or 4 bytes. *)
Theorem main_stays_on_protocol {D : Type} `{I2C D} (fuel : nat) (d : D) :
  log_ok on_protocol (log (snd (main fuel (mk_world d [])))) = true.
Proof. apply on_protocol_main. reflexivity. Qed.

(** X9.  In every run of [main] each read comes right after the
    acknowledged one-byte write that selects its register, with nothing
    in between, and asks for 4 bytes of the result register and for 1
    byte of any other. *)
Theorem main_reads_follow_select {D : Type} `{I2C D} (fuel : nat) (d : D) :
  log_ok read_follows_select (log (snd (main fuel (mk_world d [])))) = true.
Proof. apply read_follows_select_main. reflexivity. Qed.

(** X10.  In every run of [main] the result register is selected only
    when the status decoded last (by the fault check) shows no error and
    the status decoded before it (by the poll) shows data ready. *)
Theorem main_reads_result_when_ready {D : Type} `{I2C D} (fuel : nat) (d : D) :
  log_ok result_after_data_ready (log (snd (main fuel (mk_world d [])))) = true.
Proof. apply result_guard_main. reflexivity. Qed.

(** X11.  In every run of [main] the boot command is written at most once
    and the mode register is written at most once. *)
Theorem main_boots_and_configures_once {D : Type} `{I2C D}
    (fuel : nat) (d : D) :
  (boot_writes (log (snd (main fuel (mk_world d [])))) <= 1)%nat /\
  (count_events is_mode_write (log (snd (main fuel (mk_world d []))))
   <= 1)%nat.
Proof.
  split.
  - exact (main_boots_at_most_once fuel (mk_world d [])).
  - exact (main_sets_mode_at_most_once fuel (mk_world d [])).
Qed.

(** X12.  In every run of [main] each measurement report
    ("air: tvoc=%d") prints the [tvoc] decoded from the acknowledged
    4-byte read made just before it. *)
Theorem main_reports_what_it_read {D : Type} `{I2C D} (fuel : nat) (d : D) :
  log_ok reports_last_read (log (snd (main fuel (mk_world d [])))) = true.
Proof. apply report_main. reflexivity. Qed.
